(** * ACFP: a shallow embedding of [ACFP.h] and the properties of its parser

    The header defines, in this order: the primitive parsers
    ([Parser<bool>], [Parser<T>] for integral and floating point [T]), the
    three-level table ([Section], [SectionGroup], [ConfigTable]), the
    lexical helpers on [std::string_view] and the line loop
    [parseConfigFile].  The embedding keeps that order and those names.

    - A [std::string_view] is modelled by the [string] of the characters it
      views (the header never writes through a view).
    - [std::string_view::npos] is [None]; positions and sizes are [nat].
    - [uint32_t] and [uint16_t] line numbers are [Z] with the wrap-around
      written out.
    - A [std::unordered_map<std::string, V>] is a [gmap string V].
    - A call either returns, throws one of the header's exceptions, or
      reads outside its view; the three are the constructors of [outcome].
*)

From Stdlib Require Import ZArith Ascii String List Lia Bool.
From stdpp Require Import gmap strings list fin_maps.

Local Open Scope string_scope.

(** ** Characters the header names *)

Definition ch_dquote : ascii := "034"%char.
Definition ch_backslash : ascii := "092"%char.
Definition ch_hash : ascii := "035"%char.
Definition ch_slash : ascii := "047"%char.
Definition ch_space : ascii := "032"%char.
Definition ch_tab : ascii := "009"%char.
Definition ch_newline : ascii := "010"%char.
Definition ch_eq : ascii := "061"%char.
Definition ch_lbracket : ascii := "091"%char.
Definition ch_rbracket : ascii := "093"%char.
Definition ch_minus : ascii := "045"%char.

(** ** Outcomes of a call *)

Inductive exception : Type :=
| BoolParseError (sv : string)
    (* std::domain_error, Could not parse '{}' as bool *)
| NotRepresentable (sv : string)
    (* std::range_error, String '{}' not representible in type {} *)
| NotValid (sv : string)
    (* std::invalid_argument, String '{}' is not a valid {} *)
| UnknownParseError (sv : string)
    (* std::runtime_error, Unknown error while parsing '{}' as a {} *)
| UnfinishedQuote (line_num : Z) (sv : string)
    (* std::runtime_error, Unfished quoted string on line {}: '{}' *)
| MalformedLine (line_num : Z) (line : string).
    (* std::runtime_error, Malformed line on line {}: '{}' *)

Inductive outcome (A : Type) : Type :=
| Returns (a : A)
| Throws (e : exception)
| OutOfBounds.

Arguments Returns {A} a.
Arguments Throws {A} e.
Arguments OutOfBounds {A}.

Definition bind {A B : Type} (m : outcome A) (k : A -> outcome B) : outcome B :=
  match m with
  | Returns a => k a
  | Throws e => Throws e
  | OutOfBounds => OutOfBounds
  end.

Notation "'let*' x ':=' m 'in' k" := (bind m (fun x => k))
  (at level 10, x name, m at level 100, k at level 200, only parsing).

Definition raises {A : Type} (m : outcome A) : Prop :=
  match m with
  | Returns _ => False
  | _ => True
  end.

(** ** [std::string_view] *)

Module SV.

Definition size (sv : string) : nat := String.length sv.

(** [sv[p]]; [None] is a read outside the view. *)
Definition at_ (sv : string) (p : nat) : option ascii := String.get p sv.

Definition front (sv : string) : option ascii := at_ sv 0.

Definition back (sv : string) : option ascii :=
  match size sv with
  | O => None
  | S n => at_ sv n
  end.

Fixpoint drop (n : nat) (sv : string) : string :=
  match n, sv with
  | O, _ => sv
  | S n', String _ r => drop n' r
  | S _, EmptyString => EmptyString
  end.

Fixpoint take (n : nat) (sv : string) : string :=
  match n, sv with
  | S n', String c r => String c (take n' r)
  | _, _ => EmptyString
  end.

(** The header calls these with [n <= size sv] only. *)
Definition remove_prefix (n : nat) (sv : string) : string := drop n sv.
Definition remove_suffix (n : nat) (sv : string) : string := take (size sv - n) sv.

(** [sv.substr(pos, count)]; [count = None] is [npos].  The header calls
    it with [pos <= size sv] only. *)
Definition substr (pos : nat) (count : option nat) (sv : string) : string :=
  match count with
  | None => drop pos sv
  | Some n => take n (drop pos sv)
  end.

Fixpoint mem (c : ascii) (set : string) : bool :=
  match set with
  | EmptyString => false
  | String d r => if Ascii.eqb c d then true else mem c r
  end.

Fixpoint find_first_of_from (p : nat) (sv set : string) : option nat :=
  match sv with
  | EmptyString => None
  | String c r => if mem c set then Some p else find_first_of_from (S p) r set
  end.

Definition find_first_of (sv set : string) : option nat :=
  find_first_of_from 0 sv set.

Fixpoint find_first_not_of_from (p : nat) (sv set : string) : option nat :=
  match sv with
  | EmptyString => None
  | String c r => if mem c set then find_first_not_of_from (S p) r set else Some p
  end.

Definition find_first_not_of (sv set : string) : option nat :=
  find_first_not_of_from 0 sv set.

Fixpoint find_last_not_of_from (p : nat) (found : option nat) (sv set : string)
  : option nat :=
  match sv with
  | EmptyString => found
  | String c r =>
      find_last_not_of_from (S p) (if mem c set then found else Some p) r set
  end.

Definition find_last_not_of (sv set : string) : option nat :=
  find_last_not_of_from 0 None sv set.

End SV.

(** ** Primitive parsers *)

(** [Parser<bool>::parse] *)
Definition Parser_bool_parse (sv : string) : outcome bool :=
  match sv with
  | String c _ =>
      if (Ascii.eqb c "0" || Ascii.eqb c "f" || Ascii.eqb c "n"
          || Ascii.eqb c "F" || Ascii.eqb c "N")%bool then Returns false
      else if (Ascii.eqb c "1" || Ascii.eqb c "t" || Ascii.eqb c "y"
               || Ascii.eqb c "T" || Ascii.eqb c "Y")%bool then Returns true
      else Throws (BoolParseError sv)
  | EmptyString => Throws (BoolParseError sv)
  end.

(** [std::from_chars] for an integer type, base 10, as the C++ standard
    fixes it: no leading white space, a minus sign only for a signed type,
    then the longest run of decimal digits.  [ptr] is the number of
    characters matched; with no digit nothing is matched. *)

Record int_type : Type := { is_signed : bool; width : Z }.

Definition int32_t : int_type := {| is_signed := true; width := 32 |}.
Definition uint16_t : int_type := {| is_signed := false; width := 16 |}.

Definition int_min (T : int_type) : Z :=
  if is_signed T then (- 2 ^ (width T - 1))%Z else 0%Z.

Definition int_max (T : int_type) : Z :=
  if is_signed T then (2 ^ (width T - 1) - 1)%Z else (2 ^ width T - 1)%Z.

Inductive errc : Type :=
| errc_none
| errc_invalid_argument
| errc_result_out_of_range
| errc_other.

Record from_chars_result : Type := { ptr : nat; ec : errc }.

Definition is_digit (c : ascii) : bool :=
  ((48 <=? nat_of_ascii c)%nat && (nat_of_ascii c <=? 57)%nat)%bool.

Definition digit_value (c : ascii) : Z := (Z.of_nat (nat_of_ascii c) - 48)%Z.

Fixpoint scan_digits (sv : string) (acc : Z) (n : nat) : Z * nat :=
  match sv with
  | String c r =>
      if is_digit c then scan_digits r (10 * acc + digit_value c)%Z (S n)
      else (acc, n)
  | EmptyString => (acc, n)
  end.

(** The third argument is the object [value] refers to before the call; it
    is left as it is unless the conversion succeeds. *)
Definition from_chars (T : int_type) (sv : string) (value : Z)
  : from_chars_result * Z :=
  let '(neg, body) :=
    match sv with
    | String c r =>
        if is_signed T && Ascii.eqb c ch_minus then (true, r) else (false, sv)
    | EmptyString => (false, sv)
    end in
  let '(mag, n) := scan_digits body 0%Z 0 in
  match n with
  | O => ({| ptr := 0; ec := errc_invalid_argument |}, value)
  | S _ =>
      let v := if neg : bool then (- mag)%Z else mag in
      let p := if neg : bool then S n else n in
      if ((int_min T <=? v)%Z && (v <=? int_max T)%Z)%bool
      then ({| ptr := p; ec := errc_none |}, v)
      else ({| ptr := p; ec := errc_result_out_of_range |}, value)
  end.

(** [Parser<T>::parse] for an integral [T].  The local [v] is declared
    without an initialiser and is read only after a successful
    [from_chars]; [ptr] is bound and not used.  (The floating point
    instantiation runs the same body over the floating [from_chars]; it
    is [Parser_parse_float] below.) *)
Definition Parser_parse (T : int_type) (sv : string) : outcome Z :=
  let v := 0%Z in
  let '(res, v) := from_chars T sv v in
  match ec res with
  | errc_result_out_of_range => Throws (NotRepresentable sv)
  | errc_invalid_argument => Throws (NotValid sv)
  | errc_other => Throws (UnknownParseError sv)
  | errc_none => Returns v
  end.

(** [parse<T>(std::optional<std::string_view>)] *)
Definition parse_optional {A : Type} (parse : string -> outcome A)
    (osv : option string) : outcome (option A) :=
  match osv with
  | Some sv => let* v := parse sv in Returns (Some v)
  | None => Returns None
  end.

(** ** The table *)

Record Section : Type := { fields : gmap string string }.
Record SectionGroup : Type := { sections : gmap string Section }.
Record ConfigTable : Type := { groups : gmap string SectionGroup }.

Definition empty_section : Section := {| fields := ∅ |}.
Definition empty_section_group : SectionGroup := {| sections := ∅ |}.
Definition empty_table : ConfigTable := {| groups := ∅ |}.

Module Sec.

Definition hasField (s : Section) (key : string) : bool :=
  bool_decide (is_Some (fields s !! key)).

Definition getField (s : Section) (key : string) : option string :=
  fields s !! key.

Definition getFieldAs {A : Type} (parse : string -> outcome A)
    (s : Section) (key : string) : outcome (option A) :=
  parse_optional parse (getField s key).

Definition setField (s : Section) (key value : string) : Section :=
  {| fields := <[key := value]> (fields s) |}.

(** [Section::operator[]] *)
Definition index (s : Section) (key : string) : option string :=
  getField s key.

End Sec.

Module Grp.

Definition hasSubsection (g : SectionGroup) (subkey : string) : bool :=
  bool_decide (is_Some (sections g !! subkey)).

(** [SectionGroup::operator[] const] *)
Definition index (g : SectionGroup) (subkey : string) : Section :=
  match sections g !! subkey with
  | None => empty_section
  | Some s => s
  end.

(** [getSubsection const] *)
Definition getSubsection (g : SectionGroup) (subkey : string) : Section :=
  index g subkey.

(** [getSubsection] on a mutable group is [sections[subkey]]: the entry
    is created empty when it is missing.  The reference it returns is
    the entry under [subkey] of the group this returns. *)
Definition getSubsection_mut (g : SectionGroup) (subkey : string) : SectionGroup :=
  match sections g !! subkey with
  | None => {| sections := <[subkey := empty_section]> (sections g) |}
  | Some _ => g
  end.

End Grp.

Module Tbl.

Definition hasSection (t : ConfigTable) (key : string) : bool :=
  bool_decide (is_Some (groups t !! key)).

(** [ConfigTable::operator[] const] *)
Definition index (t : ConfigTable) (key : string) : SectionGroup :=
  match groups t !! key with
  | None => empty_section_group
  | Some g => g
  end.

(** [getSection const] *)
Definition getSection (t : ConfigTable) (key : string) : SectionGroup :=
  index t key.

(** [getSection] on a mutable table is [groups[key]]. *)
Definition getSection_mut (t : ConfigTable) (key : string) : ConfigTable :=
  match groups t !! key with
  | None => {| groups := <[key := empty_section_group]> (groups t) |}
  | Some _ => t
  end.

End Tbl.

(** ** Lexical helpers *)

Definition uint16 (z : Z) : Z := (z mod 2 ^ 16)%Z.
Definition uint32 (z : Z) : Z := (z mod 2 ^ 32)%Z.

Definition default_trim_chars : string := String ch_space (String ch_tab EmptyString).

Definition trimStringViewEnds (sv : string) (trim_chars : string) : string :=
  let sv :=
    match SV.find_first_not_of sv trim_chars with
    | Some fnos => SV.remove_prefix fnos sv
    | None => sv
    end in
  match SV.find_last_not_of sv trim_chars with
  | Some lnos => SV.remove_suffix (SV.size sv - (lnos + 1)) sv
  | None => sv
  end.

(** The loop of [findFirstNotQuoted], entered at position [p] with the two
    flags as they stand and [sv] the characters from [p] on. *)
Fixpoint findFirstNotQuoted_from (p : nat) (quoted escaped : bool)
    (sv : string) (ch : ascii) : option nat :=
  match sv with
  | EmptyString => None
  | String c r =>
      if Ascii.eqb c ch_backslash then
        findFirstNotQuoted_from (S p) quoted (negb escaped) r ch
      else if Ascii.eqb c ch_dquote then
        let quoted' :=
          if quoted then (if negb escaped then false else quoted)
          else (if negb escaped then true else quoted) in
        findFirstNotQuoted_from (S p) quoted' false r ch
      else if Ascii.eqb c ch then
        if (negb escaped && negb quoted)%bool then Some p
        else findFirstNotQuoted_from (S p) quoted escaped r ch
      else findFirstNotQuoted_from (S p) quoted escaped r ch
  end.

Definition findFirstNotQuoted (sv : string) (ch : ascii) : option nat :=
  findFirstNotQuoted_from 0 false false sv ch.

Definition comment_chars : string := String ch_hash (String ch_slash EmptyString).

Definition trimStringComment (sv : string) : outcome string :=
  match SV.find_first_of sv comment_chars with
  | Some p =>
      match SV.at_ sv p with
      | None => OutOfBounds
      | Some c =>
          if Ascii.eqb c ch_hash then
            Returns (SV.remove_suffix (SV.size sv - p) sv)
          else if (Ascii.eqb c ch_slash && (p + 1 <? SV.size sv)%nat)%bool then
            match SV.at_ sv (p + 1) with
            | None => OutOfBounds
            | Some d =>
                if Ascii.eqb d ch_slash
                then Returns (SV.remove_suffix (SV.size sv - p) sv)
                else Returns sv
            end
          else Returns sv
      end
  | None => Returns sv
  end.

(** [line_num] is the [uint16_t] parameter: callers narrow to it. *)
Definition trimStringQuotes (sv : string) (line_num : Z) (front back : ascii)
  : outcome string :=
  match SV.front sv with
  | None => OutOfBounds
  | Some c =>
      if Ascii.eqb c front then
        let sv := SV.remove_prefix 1 sv in
        if (SV.size sv =? 0)%nat then Throws (UnfinishedQuote line_num sv)
        else
          match SV.back sv with
          | None => OutOfBounds
          | Some b =>
              if negb (Ascii.eqb b back) then Throws (UnfinishedQuote line_num sv)
              else Returns (SV.remove_suffix 1 sv)
          end
      else Returns sv
  end.

Definition findEqPos (line : string) : option nat :=
  findFirstNotQuoted line ch_eq.

(** ** The line loop *)

(** The table under construction and [cur_section], a pointer to the
    [Section] stored under the two keys (entries of an
    [std::unordered_map] do not move when others are inserted). *)
Record builder : Type := { ct : ConfigTable; cur_section : string * string }.

(** [&ct.getSection(name).getSubsection(sub)] on the mutable table. *)
Definition select (t : ConfigTable) (name sub : string) : builder :=
  let t1 := Tbl.getSection_mut t name in
  let g := Grp.getSubsection_mut (Tbl.index t1 name) sub in
  {| ct := {| groups := <[name := g]> (groups t1) |};
     cur_section := (name, sub) |}.

(** [cur_section->setField(key, value)] *)
Definition cur_setField (b : builder) (key value : string) : builder :=
  let '(name, sub) := cur_section b in
  let g := Tbl.index (ct b) name in
  let s := Sec.setField (Grp.index g sub) key value in
  {| ct := {| groups :=
                <[name := {| sections := <[sub := s]> (sections g) |}]>
                  (groups (ct b)) |};
     cur_section := cur_section b |}.

(** The body of the [for] loop for one line; [line_num] is the
    [uint32_t] counter. *)
Definition parseLine (b : builder) (line_num : Z) (line_string : string)
  : outcome builder :=
  let line := trimStringViewEnds line_string default_trim_chars in
  let* line := trimStringComment line in
  if (SV.size line =? 0)%nat then Returns b
  else
    match SV.front line with
    | None => OutOfBounds
    | Some c =>
        if Ascii.eqb c ch_lbracket then
          let* line := trimStringQuotes line (uint16 line_num) ch_lbracket ch_rbracket in
          match findFirstNotQuoted line ch_space with
          | None =>
              let section_name := line in
              Returns (select (ct b) section_name EmptyString)
          | Some sep =>
              let section_name := SV.substr 0 (Some sep) line in
              let section_name := trimStringViewEnds section_name default_trim_chars in
              let* section_name :=
                trimStringQuotes section_name (uint16 line_num) ch_dquote ch_dquote in
              let section_subname := SV.substr (sep + 1) None line in
              let section_subname := trimStringViewEnds section_subname default_trim_chars in
              let* section_subname :=
                trimStringQuotes section_subname (uint16 line_num) ch_dquote ch_dquote in
              Returns (select (ct b) section_name section_subname)
          end
        else
          match findEqPos line with
          | None => Throws (MalformedLine line_num line)
          | Some eq_pos =>
              let key := SV.substr 0 (Some eq_pos) line in
              let key := trimStringViewEnds key default_trim_chars in
              let* key := trimStringQuotes key (uint16 line_num) ch_dquote ch_dquote in
              let value := SV.substr (eq_pos + 1) None line in
              let value := trimStringViewEnds value default_trim_chars in
              let* value := trimStringQuotes value (uint16 line_num) ch_dquote ch_dquote in
              Returns (cur_setField b key value)
          end
    end.

(** The lines [std::getline] hands out, one after the other, from a stream
    holding [istream]: each ends at a newline, which is dropped, or at the end
    of the stream; an empty read at the end of the stream ends the loop. *)
Fixpoint getlines (istream : string) : list string :=
  match istream with
  | EmptyString => []
  | String c r =>
      if Ascii.eqb c ch_newline then EmptyString :: getlines r
      else
        match getlines r with
        | [] => [String c EmptyString]
        | l :: ls => String c l :: ls
        end
  end.

Fixpoint parseLoop (b : builder) (line_num : Z) (lines : list string)
  : outcome builder :=
  match lines with
  | [] => Returns b
  | line_string :: rest =>
      let* b' := parseLine b line_num line_string in
      parseLoop b' (uint32 (line_num + 1)) rest
  end.

(** [parseConfigFile(std::istream&)] *)
Definition parseConfigFile (istream : string) : outcome ConfigTable :=
  let b := select empty_table EmptyString EmptyString in
  let* b := parseLoop b 1%Z (getlines istream) in
  Returns (ct b).

(** ** Vocabulary of the statements *)

Definition lf : string := String ch_newline EmptyString.
Definition dq : string := String ch_dquote EmptyString.
Definition bs : string := String ch_backslash EmptyString.

(** [table[name][sub][key]] *)
Definition lookup3 (t : ConfigTable) (name sub key : string) : option string :=
  Sec.index (Grp.index (Tbl.index t name) sub) key.

(** The table a successful parse returned, for reading its entries. *)
Definition table_of (o : outcome ConfigTable) : ConfigTable :=
  match o with
  | Returns t => t
  | _ => empty_table
  end.


(** [n] empty lines, then [tail]. *)
Fixpoint blank_lines (n : nat) (tail : string) : string :=
  match n with
  | O => tail
  | S k => String ch_newline (blank_lines k tail)
  end.

(** No character of [sv] belongs to [set]. *)
Fixpoint free_of (set sv : string) : bool :=
  match sv with
  | EmptyString => true
  | String c r => negb (SV.mem c set) && free_of set r
  end.

(** Every character of [sv] belongs to [set]. *)
Fixpoint made_of (set sv : string) : bool :=
  match sv with
  | EmptyString => true
  | String c r => SV.mem c set && made_of set r
  end.

Definition to_lower (c : ascii) : ascii :=
  let n := nat_of_ascii c in
  if ((65 <=? n)%nat && (n <=? 90)%nat)%bool then ascii_of_nat (n + 32) else c.

(** [t] is empty or begins with a character that is not a decimal digit. *)
Definition no_leading_digit (t : string) : bool :=
  match t with
  | EmptyString => true
  | String c _ => negb (is_digit c)
  end.

Fixpoint all_digits (sv : string) : bool :=
  match sv with
  | EmptyString => true
  | String c r => is_digit c && all_digits r
  end.

(** The whole of [sv] is a number in the grammar of [from_chars]: an
    optional minus sign (signed types), then one digit or more. *)
Definition numeric_text (T : int_type) (sv : string) : bool :=
  let body :=
    match sv with
    | String c r => if (is_signed T && Ascii.eqb c ch_minus)%bool then r else sv
    | EmptyString => sv
    end in
  (negb (SV.size body =? 0)%nat && all_digits body)%bool.

(** Comment stripping as the specification words it: the first [#] or
    [//] that is not escaped, where a backslash toggles the escape flag
    and the flag is spent on the next character. *)
Fixpoint spec_comment_start_from (p : nat) (escaped : bool) (sv : string)
  : option nat :=
  match sv with
  | EmptyString => None
  | String c r =>
      if Ascii.eqb c ch_backslash then spec_comment_start_from (S p) (negb escaped) r
      else if (negb escaped &&
               (Ascii.eqb c ch_hash ||
                (Ascii.eqb c ch_slash &&
                 match r with
                 | String d _ => Ascii.eqb d ch_slash
                 | EmptyString => false
                 end)))%bool then Some p
      else spec_comment_start_from (S p) false r
  end.

Definition spec_trimStringComment (sv : string) : string :=
  match spec_comment_start_from 0 false sv with
  | Some p => SV.take p sv
  | None => sv
  end.

(** The line an error names. *)
Definition error_line (e : exception) : option Z :=
  match e with
  | UnfinishedQuote n _ => Some n
  | MalformedLine n _ => Some n
  | _ => None
  end.

(** ** [std::from_chars] for a floating point type

    The text it reads is fixed by the C++ standard (the subject sequence
    of [strtod] in the C locale, default format, without a leading plus
    sign and without the hexadecimal form): an optional minus sign, then
    either a decimal number (digits with an optional point, one digit at
    least, and an optional exponent) or, letter case ignored, [inf],
    [infinity], [nan] or [nan(...)].  It reads the longest such text the
    input begins with.  The value of the text read is floating point
    arithmetic and stays a parameter: [convert] gives it, or [None] when
    it is not representable. *)

Definition ch_dot : ascii := "046"%char.
Definition ch_plus : ascii := "043"%char.
Definition ch_lparen : ascii := "040"%char.
Definition ch_rparen : ascii := "041"%char.
Definition ch_underscore : ascii := "095"%char.

Definition is_lower_letter (c : ascii) : bool :=
  ((97 <=? nat_of_ascii c)%nat && (nat_of_ascii c <=? 122)%nat)%bool.

Definition is_alpha (c : ascii) : bool := is_lower_letter (to_lower c).

(** The characters of the sequence between the brackets of [nan(...)]. *)
Definition is_nchar (c : ascii) : bool :=
  (is_digit c || is_alpha c || Ascii.eqb c ch_underscore)%bool.

Fixpoint count_digits (sv : string) : nat :=
  match sv with
  | String c r => if is_digit c then S (count_digits r) else 0
  | EmptyString => 0
  end.

Fixpoint count_nchars (sv : string) : nat :=
  match sv with
  | String c r => if is_nchar c then S (count_nchars r) else 0
  | EmptyString => 0
  end.

(** [sv] begins with [word], letter case ignored; [word] is in lower
    case. *)
Fixpoint starts_with_ci (word sv : string) : bool :=
  match word, sv with
  | EmptyString, _ => true
  | String w word', String c r => (Ascii.eqb (to_lower c) w && starts_with_ci word' r)%bool
  | String _ _, EmptyString => false
  end.

(** The length of the exponent part [sv] begins with: [e] or [E], an
    optional sign, one digit or more; 0 when there is none. *)
Definition match_exponent (sv : string) : nat :=
  match sv with
  | String c r =>
      if Ascii.eqb (to_lower c) "e" then
        let '(s, digits) :=
          match r with
          | String d r' =>
              if (Ascii.eqb d ch_plus || Ascii.eqb d ch_minus)%bool then (1, r')
              else (0, r)
          | EmptyString => (0, r)
          end in
        match count_digits digits with
        | O => 0
        | S k => 1 + s + S k
        end
      else 0
  | EmptyString => 0
  end.

(** The length of the decimal number [sv] begins with. *)
Definition match_decimal (sv : string) : option nat :=
  let n1 := count_digits sv in
  match SV.drop n1 sv with
  | String c r =>
      if Ascii.eqb c ch_dot then
        let n2 := count_digits r in
        if (n1 + n2 =? 0)%nat then None
        else Some (n1 + 1 + n2 + match_exponent (SV.drop n2 r))
      else if (n1 =? 0)%nat then None
      else Some (n1 + match_exponent (String c r))
  | EmptyString => if (n1 =? 0)%nat then None else Some n1
  end.

(** The length of the infinity or not-a-number [sv] begins with. *)
Definition match_special (sv : string) : option nat :=
  if starts_with_ci "infinity" sv then Some 8
  else if starts_with_ci "inf" sv then Some 3
  else if starts_with_ci "nan" sv then
    match SV.drop 3 sv with
    | String c r =>
        if Ascii.eqb c ch_lparen then
          let k := count_nchars r in
          match SV.drop k r with
          | String d _ => if Ascii.eqb d ch_rparen then Some (3 + 1 + k + 1) else Some 3
          | EmptyString => Some 3
          end
        else Some 3
    | EmptyString => Some 3
    end
  else None.

(** The input without its minus sign. *)
Definition float_body (sv : string) : string :=
  match sv with
  | String c r => if Ascii.eqb c ch_minus then r else sv
  | EmptyString => sv
  end.

(** The number of characters [from_chars] matches, [None] with no
    match. *)
Definition float_match (sv : string) : option nat :=
  let neg :=
    match sv with
    | String c _ => if Ascii.eqb c ch_minus then 1 else 0
    | EmptyString => 0
    end in
  match match_decimal (float_body sv) with
  | Some n => Some (neg + n)
  | None =>
      match match_special (float_body sv) with
      | Some n => Some (neg + n)
      | None => None
      end
  end.

Definition from_chars_float {F : Type} (convert : string -> option F)
    (sv : string) (value : F) : from_chars_result * F :=
  match float_match sv with
  | None => ({| ptr := 0; ec := errc_invalid_argument |}, value)
  | Some n =>
      match convert (SV.take n sv) with
      | Some v => ({| ptr := n; ec := errc_none |}, v)
      | None => ({| ptr := n; ec := errc_result_out_of_range |}, value)
      end
  end.

(** [Parser<T>::parse] for a floating point [T]: the same body over the
    floating [from_chars].  [indeterminate] is what the local [v] holds
    before the call. *)
Definition Parser_parse_float {F : Type} (convert : string -> option F)
    (indeterminate : F) (sv : string) : outcome F :=
  let v := indeterminate in
  let '(res, v) := from_chars_float convert sv v in
  match ec res with
  | errc_result_out_of_range => Throws (NotRepresentable sv)
  | errc_invalid_argument => Throws (NotValid sv)
  | errc_other => Throws (UnknownParseError sv)
  | errc_none => Returns v
  end.

(** [t] cannot go on the number that [sv] begins with: it is empty, or
    its first character is, after a decimal number, no digit, point,
    exponent letter or sign, and after an infinity or a not-a-number no
    letter, digit, underscore or bracket. *)
Definition cannot_continue_float (sv t : string) : bool :=
  match t with
  | EmptyString => true
  | String c _ =>
      match float_body sv with
      | String b _ =>
          if (is_digit b || Ascii.eqb b ch_dot)%bool then
            negb (is_digit c || Ascii.eqb c ch_dot || Ascii.eqb (to_lower c) "e"
                  || Ascii.eqb c ch_plus || Ascii.eqb c ch_minus)
          else negb (is_nchar c || Ascii.eqb c ch_lparen || Ascii.eqb c ch_rparen)
      | EmptyString => false
      end
  end.

(** What the first character of a text is not, when the text cannot
    continue a decimal number, and when it cannot continue an infinity
    or a not-a-number. *)
Definition stops_decimal (t : string) : Prop :=
  match t with
  | EmptyString => True
  | String c _ =>
      is_digit c = false /\ Ascii.eqb c ch_dot = false /\
      Ascii.eqb (to_lower c) "e" = false /\
      Ascii.eqb c ch_plus = false /\ Ascii.eqb c ch_minus = false
  end.

Definition stops_special (t : string) : Prop :=
  match t with
  | EmptyString => True
  | String c _ =>
      is_nchar c = false /\ Ascii.eqb c ch_lparen = false /\
      Ascii.eqb c ch_rparen = false
  end.

Fixpoint all_lower (word : string) : bool :=
  match word with
  | EmptyString => true
  | String w r => is_lower_letter w && all_lower r
  end.

(** The number a text of decimal digits writes. *)
Fixpoint decimal_value (ds : string) : Z :=
  match ds with
  | EmptyString => 0%Z
  | String c r =>
      (digit_value c * 10 ^ Z.of_nat (String.length r) + decimal_value r)%Z
  end.

(** The first position of [sv] at which a comment begins, a [#] or two
    [/] in a row, whatever stands before it. *)
Fixpoint first_comment_from (p : nat) (sv : string) : option nat :=
  match sv with
  | EmptyString => None
  | String c r =>
      if (Ascii.eqb c ch_hash ||
          (Ascii.eqb c ch_slash &&
           match r with
           | String d _ => Ascii.eqb d ch_slash
           | EmptyString => false
           end))%bool
      then Some p
      else first_comment_from (S p) r
  end.

Definition first_comment (sv : string) : option nat := first_comment_from 0 sv.

(** The text [from_chars] looks for digits in: the input, without its
    minus sign when the type is signed. *)
Definition unsigned_part (T : int_type) (sv : string) : string :=
  match sv with
  | String c r => if (is_signed T && Ascii.eqb c ch_minus)%bool then r else sv
  | EmptyString => sv
  end.

(** [Section::iterate]: the callback is run on every stored pair, one
    after the other; its effect is a change of a state [St].  The order
    in which an [std::unordered_map] hands out its entries is not fixed;
    here it is the order of [map_to_list]. *)
Definition iterate {St : Type} (s : Section) (cb : string -> string -> St -> St)
    (st : St) : St :=
  fold_left (fun acc kv => cb (fst kv) (snd kv) acc) (map_to_list (fields s)) st.

(** The callback that writes down the pairs it is called with. *)
Definition record_call (k v : string) (calls : list (string * string))
  : list (string * string) :=
  calls ++ [(k, v)].

(** [cur_section] points at a [Section] the table holds. *)
Definition cursor_valid (b : builder) : bool :=
  (Tbl.hasSection (ct b) (fst (cur_section b)) &&
   Grp.hasSubsection (Tbl.index (ct b) (fst (cur_section b))) (snd (cur_section b)))%bool.

(** The characters that mean something to the line loop. *)
Definition special_chars : string :=
  String ch_space (String ch_tab (String ch_dquote (String ch_backslash
    (String ch_eq (String ch_hash (String ch_slash (String ch_lbracket
      (String ch_rbracket (String ch_newline EmptyString))))))))).

(** A bare word: one character or more, none of them special. *)
Definition bare (s : string) : bool :=
  (negb (SV.size s =? 0)%nat && free_of special_chars s)%bool.

(** Everything present in [t] is present in [t']: sections, subsections
    and fields. *)
Definition table_le (t t' : ConfigTable) : Prop :=
  (forall x, Tbl.hasSection t x = true -> Tbl.hasSection t' x = true) /\
  (forall x y, Grp.hasSubsection (Tbl.index t x) y = true ->
               Grp.hasSubsection (Tbl.index t' x) y = true) /\
  (forall x y k, Sec.hasField (Grp.index (Tbl.index t x) y) k = true ->
                 Sec.hasField (Grp.index (Tbl.index t' x) y) k = true).

(** Case analysis on the first call of a sequence that returned. *)
Ltac step_bind_ret H :=
  match type of H with
  | bind ?m _ = Returns _ =>
      let E := fresh "E" in
      destruct m eqn:E; simpl in H; [| discriminate H | discriminate H]
  end.

(** Case analysis on the first call of a sequence that threw. *)
Ltac step_bind H :=
  match type of H with
  | bind ?m _ = Throws _ =>
      let E := fresh "E" in
      destruct m eqn:E; simpl in H; [| | discriminate H]
  end.

(** * Properties *)

(** ** The header's own scenarios *)

Example scenario_server :
  let t := table_of (parseConfigFile
             ("[server]" ++ lf ++ "host = localhost" ++ lf ++ "port = 8080")) in
  lookup3 t "server" "" "host" = Some "localhost" /\
  Sec.getFieldAs (Parser_parse int32_t) (Grp.index (Tbl.index t "server") "") "port"
    = Returns (Some 8080%Z).
Proof. vm_compute. split; reflexivity. Qed.

Example scenario_subsection :
  lookup3 (table_of (parseConfigFile
             ("[server main]" ++ lf ++ "name = " ++ dq ++ "my server" ++ dq ++ " # comment")))
          "server" "main" "name" = Some "my server".
Proof. vm_compute. reflexivity. Qed.

Example scenario_out_of_range :
  Parser_parse int32_t "99999999999999999999"
  = Throws (NotRepresentable "99999999999999999999").
Proof. vm_compute. reflexivity. Qed.

Example scenario_malformed :
  parseConfigFile "bad line without equals"
  = Throws (MalformedLine 1 "bad line without equals").
Proof. vm_compute. reflexivity. Qed.

(** ** Primitive parser: bool *)

(** C8. [Parser<bool>::parse] looks at the first character only and
    without regard to case: a first character among [0 f n] gives false,
    among [1 t y] gives true, whatever follows; any other first character,
    and the empty string, throws the not-a-boolean error. *)
Theorem Parser_bool_parse_first_char (c : ascii) (tl : string) :
  (SV.mem (to_lower c) "0fn" = true ->
     Parser_bool_parse (String c tl) = Returns false) /\
  (SV.mem (to_lower c) "1ty" = true ->
     Parser_bool_parse (String c tl) = Returns true) /\
  (SV.mem (to_lower c) "0fn1ty" = false ->
     Parser_bool_parse (String c tl) = Throws (BoolParseError (String c tl))) /\
  Parser_bool_parse EmptyString = Throws (BoolParseError EmptyString).
Proof.
  destruct c as [[] [] [] [] [] [] [] []];
    (split; [| split; [| split]]);
    try reflexivity;
    intros H; vm_compute in H; try discriminate H; reflexivity.
Qed.

Lemma Parser_bool_parse_first_char_witness :
  Parser_bool_parse "Yes" = Returns true /\
  Parser_bool_parse "nope" = Returns false /\
  Parser_bool_parse "maybe" = Throws (BoolParseError "maybe").
Proof.
  split; [| split].
  - apply (Parser_bool_parse_first_char "Y" "es"). reflexivity.
  - apply (Parser_bool_parse_first_char "n" "ope"). reflexivity.
  - apply (Parser_bool_parse_first_char "m" "aybe"). reflexivity.
Defined.

(** ** The table *)

(** C9. Within one [Section], a field that was set reads back as the value
    set, and of two writes to one key the later one is the one that stays. *)
Theorem setField_getField (s : Section) (k v v2 : string) :
  Sec.getField (Sec.setField s k v) k = Some v /\
  Sec.getField (Sec.setField (Sec.setField s k v) k v2) k = Some v2 /\
  Sec.setField (Sec.setField s k v) k v2 = Sec.setField s k v2.
Proof.
  unfold Sec.getField, Sec.setField; simpl.
  rewrite !lookup_insert_eq, insert_insert_eq. auto.
Qed.

Lemma setField_other (s : Section) (k k' v : string) :
  k <> k' -> Sec.getField (Sec.setField s k v) k' = Sec.getField s k'.
Proof.
  intros Hne. unfold Sec.getField, Sec.setField; simpl.
  by rewrite lookup_insert_ne.
Qed.

Lemma hasSection_false (t : ConfigTable) (name : string) :
  Tbl.hasSection t name = false -> Tbl.index t name = empty_section_group.
Proof.
  unfold Tbl.hasSection, Tbl.index. intros H.
  apply bool_decide_eq_false in H.
  destruct (groups t !! name) as [g|]; [| reflexivity].
  exfalso. apply H. by eexists.
Qed.

Lemma hasSubsection_false (g : SectionGroup) (sub : string) :
  Grp.hasSubsection g sub = false -> Grp.index g sub = empty_section.
Proof.
  unfold Grp.hasSubsection, Grp.index. intros H.
  apply bool_decide_eq_false in H.
  destruct (sections g !! sub) as [s|]; [| reflexivity].
  exfalso. apply H. by eexists.
Qed.

Lemma hasField_false (s : Section) (key : string) :
  Sec.hasField s key = false -> Sec.index s key = None.
Proof.
  unfold Sec.hasField, Sec.index, Sec.getField. intros H.
  apply bool_decide_eq_false in H.
  destruct (fields s !! key) as [v|]; [| reflexivity].
  exfalso. apply H. by eexists.
Qed.

Lemma empty_group_index (sub : string) :
  Grp.index empty_section_group sub = empty_section.
Proof. unfold Grp.index; simpl. by rewrite lookup_empty. Qed.

Lemma empty_section_index (key : string) : Sec.index empty_section key = None.
Proof. unfold Sec.index, Sec.getField; simpl. by rewrite lookup_empty. Qed.

Lemma lookup3_absent (t : ConfigTable) (name sub key : string) :
  Tbl.hasSection t name = false \/
  Grp.hasSubsection (Tbl.index t name) sub = false \/
  Sec.hasField (Grp.index (Tbl.index t name) sub) key = false ->
  lookup3 t name sub key = None.
Proof.
  unfold lookup3. intros [H | [H | H]].
  - by rewrite (hasSection_false _ _ H), empty_group_index, empty_section_index.
  - by rewrite (hasSubsection_false _ _ H), empty_section_index.
  - by apply hasField_false.
Qed.

(** C6. A lookup along a path of which the section, the subsection or the
    field is missing never raises: the indexing operators are total, they
    return the empty group, the empty section and the absent field, the
    chained lookup is absent, and the typed read of it returns absent
    without calling the parser.  A typed read raises only when the field
    is present and the parser raises on its value. *)
Theorem absent_lookup_never_raises {A : Type} (parse : string -> outcome A)
    (t : ConfigTable) (name sub key : string) :
  (Tbl.hasSection t name = false -> Tbl.index t name = empty_section_group) /\
  (Grp.hasSubsection (Tbl.index t name) sub = false ->
     Grp.index (Tbl.index t name) sub = empty_section) /\
  (Tbl.hasSection t name = false \/
   Grp.hasSubsection (Tbl.index t name) sub = false \/
   Sec.hasField (Grp.index (Tbl.index t name) sub) key = false ->
     lookup3 t name sub key = None /\
     Sec.getFieldAs parse (Grp.index (Tbl.index t name) sub) key = Returns None) /\
  (raises (Sec.getFieldAs parse (Grp.index (Tbl.index t name) sub) key) ->
     exists v, lookup3 t name sub key = Some v /\ raises (parse v)).
Proof.
  split; [apply hasSection_false |].
  split; [apply hasSubsection_false |].
  split.
  - intros H. pose proof (lookup3_absent _ _ _ _ H) as Hl.
    split; [exact Hl |].
    unfold lookup3, Sec.index in Hl. unfold Sec.getFieldAs. by rewrite Hl.
  - unfold lookup3, Sec.index, Sec.getFieldAs, parse_optional.
    destruct (Sec.getField _ key) as [v|]; simpl; [| tauto].
    intros H. exists v. split; [reflexivity |].
    destruct (parse v); simpl in *; tauto.
Qed.

Lemma absent_lookup_never_raises_witness :
  let t := table_of (parseConfigFile ("[server]" ++ lf ++ "port = 80x")) in
  (lookup3 t "server" "" "host" = None /\
   Sec.getFieldAs Parser_bool_parse (Grp.index (Tbl.index t "server") "") "host"
     = Returns None) /\
  (lookup3 t "server" "main" "port" = None /\
   Sec.getFieldAs Parser_bool_parse (Grp.index (Tbl.index t "server") "main") "port"
     = Returns None) /\
  (lookup3 t "client" "" "port" = None /\
   Sec.getFieldAs Parser_bool_parse (Grp.index (Tbl.index t "client") "") "port"
     = Returns None) /\
  Tbl.index t "client" = empty_section_group /\
  Grp.index (Tbl.index t "server") "main" = empty_section /\
  exists v, lookup3 t "server" "" "port" = Some v /\ raises (Parser_bool_parse v).
Proof.
  intros t.
  split; [| split; [| split; [| split; [| split]]]].
  - apply (absent_lookup_never_raises Parser_bool_parse t "server" "" "host").
    right; right. vm_compute. reflexivity.
  - apply (absent_lookup_never_raises Parser_bool_parse t "server" "main" "port").
    right; left. vm_compute. reflexivity.
  - apply (absent_lookup_never_raises Parser_bool_parse t "client" "" "port").
    left. vm_compute. reflexivity.
  - apply (absent_lookup_never_raises Parser_bool_parse t "client" "" "port").
    vm_compute. reflexivity.
  - apply (absent_lookup_never_raises Parser_bool_parse t "server" "main" "port").
    vm_compute. reflexivity.
  - apply (absent_lookup_never_raises Parser_bool_parse t "server" "" "port").
    vm_compute. exact I.
Defined.

(** ** Quote-aware search *)

Lemma mem_false_cons (c d : ascii) (set : string) :
  SV.mem c (String d set) = false -> Ascii.eqb c d = false /\ SV.mem c set = false.
Proof. simpl. destruct (Ascii.eqb c d); [discriminate | auto]. Qed.

(** Once [escaped] is set, only a backslash or a double quote clears it:
    over any other text nothing is found, whatever is searched for. *)
Lemma escaped_stays_set (sv : string) (ch : ascii) :
  free_of (bs ++ dq) sv = true ->
  forall (p : nat) (quoted : bool),
    findFirstNotQuoted_from p quoted true sv ch = None.
Proof.
  induction sv as [| c r IH]; intros Hfree p quoted; [reflexivity |].
  change (free_of (bs ++ dq) (String c r))
    with (negb (SV.mem c (String ch_backslash (String ch_dquote EmptyString)))
          && free_of (bs ++ dq) r)%bool in Hfree.
  apply andb_true_iff in Hfree as [Hc Hr].
  apply negb_true_iff in Hc.
  apply mem_false_cons in Hc as [Hb Hc].
  apply mem_false_cons in Hc as [Hq _].
  simpl. rewrite Hb, Hq.
  destruct (Ascii.eqb c ch); simpl; by apply IH.
Qed.

(** C3. The escape flag is not spent on the character after the backslash:
    in the three characters backslash, [a], [=] the [=] at position 2 is
    not found, because the flag set at position 0 is still set there. *)
Theorem findFirstNotQuoted_escape_not_reset :
  SV.at_ (bs ++ "a=") 2 = Some ch_eq /\
  findFirstNotQuoted (bs ++ "a=") ch_eq = None /\
  findFirstNotQuoted "a=" ch_eq = Some 1.
Proof. vm_compute. repeat split; reflexivity. Qed.

(** ** Quote stripping *)

(** C10. [trimStringQuotes] reads [sv.front()] before looking at the size
    of [sv]: on the empty view, which the value of the line [k=] is, the
    read is outside the view. *)
Theorem trimStringQuotes_empty_out_of_bounds :
  (forall (line_num : Z) (front back : ascii),
     trimStringQuotes EmptyString line_num front back = OutOfBounds) /\
  (forall (b : builder) (line_num : Z), parseLine b line_num "k=" = OutOfBounds) /\
  (forall (b : builder) (line_num : Z), parseLine b line_num "=v" = OutOfBounds) /\
  parseConfigFile "k=" = OutOfBounds.
Proof. repeat split. Qed.

(** On a view that is not empty the two reads are inside it. *)
Lemma back_nonempty (c : ascii) (r : string) : exists b, SV.back (String c r) = Some b.
Proof.
  unfold SV.back, SV.size, SV.at_. simpl String.length.
  revert c. induction r as [| d r IH]; intros c; simpl.
  - by eexists.
  - apply (IH d).
Qed.

Lemma trimStringQuotes_in_bounds (sv : string) (line_num : Z) (front back : ascii) :
  sv <> EmptyString -> trimStringQuotes sv line_num front back <> OutOfBounds.
Proof.
  destruct sv as [| c r]; [congruence |]. intros _.
  unfold trimStringQuotes, SV.front, SV.at_, SV.remove_prefix. cbn.
  destruct (Ascii.eqb c front); [| discriminate].
  destruct r as [| d r']; [discriminate |]. cbn.
  destruct (back_nonempty d r') as [b Hb].
  unfold SV.back, SV.size, SV.at_ in Hb. cbn in Hb. rewrite Hb.
  destruct (negb (Ascii.eqb b back)); discriminate.
Qed.

(** ** The line loop *)

(** C4. A line holding one space is not skipped: trimming leaves a line
    of white space as it is, the line is then taken for a key/value
    line, and the parse stops with the malformed-line error.  The empty
    line is skipped. *)
Theorem whitespace_line_is_malformed :
  trimStringViewEnds " " default_trim_chars = " " /\
  (forall (b : builder) (line_num : Z),
     parseLine b line_num " " = Throws (MalformedLine line_num " ")) /\
  parseConfigFile " " = Throws (MalformedLine 1 " ") /\
  (forall (b : builder) (line_num : Z), parseLine b line_num EmptyString = Returns b).
Proof. repeat split. Qed.

(** C5. A header with no separator inside the brackets names the section
    by the text between the brackets as it stands: the quotes of a quoted
    name stay in the name, and so does white space that is not a space. *)
Theorem singleton_section_name_verbatim :
  (forall (b : builder) (line_num : Z),
     parseLine b line_num ("[" ++ dq ++ "a" ++ dq ++ "]")
     = Returns (select (ct b) (dq ++ "a" ++ dq) EmptyString)) /\
  (let t := table_of (parseConfigFile ("[" ++ dq ++ "a" ++ dq ++ "]" ++ lf ++ "k=v")) in
   Tbl.hasSection t "a" = false /\
   Tbl.hasSection t (dq ++ "a" ++ dq) = true /\
   lookup3 t (dq ++ "a" ++ dq) "" "k" = Some "v") /\
  (let t := table_of (parseConfigFile
                        ("[" ++ dq ++ "a" ++ dq ++ " " ++ dq ++ "b" ++ dq ++ "]" ++ lf ++ "k=v")) in
   lookup3 t "a" "b" "k" = Some "v").
Proof.
  split; [| split].
  - intros b line_num. reflexivity.
  - vm_compute. repeat split; reflexivity.
  - vm_compute. reflexivity.
Qed.

(** ** Line numbers in errors *)

(** C7. The unfinished-quote error does not always name the line it
    occurred on: [trimStringQuotes] takes the line number as a 16-bit
    value, so the unfinished header on line 65536 is reported as being on
    line 0 (and a line without [=] there as being on line 65536). *)
Theorem unfinished_quote_line_wraps :
  Z.of_nat (length (getlines (blank_lines (Z.to_nat 65535) "[a"))) = 65536%Z /\
  nth_error (getlines (blank_lines (Z.to_nat 65535) "[a")) (Z.to_nat 65535) = Some "[a" /\
  parseConfigFile (blank_lines (Z.to_nat 65535) "[a") = Throws (UnfinishedQuote 0 "a") /\
  parseConfigFile (blank_lines (Z.to_nat 65535) "a") = Throws (MalformedLine 65536 "a").
Proof. vm_compute. repeat split; reflexivity. Qed.

Lemma trimStringComment_no_throw (sv : string) (e : exception) :
  trimStringComment sv <> Throws e.
Proof.
  unfold trimStringComment.
  repeat match goal with
         | |- context [match ?x with _ => _ end] => destruct x
         end; discriminate.
Qed.

Lemma trimStringQuotes_throws (sv : string) (n : Z) (front back : ascii) (e : exception) :
  trimStringQuotes sv n front back = Throws e -> exists s, e = UnfinishedQuote n s.
Proof.
  unfold trimStringQuotes.
  repeat match goal with
         | |- context [match ?x with _ => _ end] => destruct x
         end; intros H; try discriminate H; injection H as <-; by eexists.
Qed.

(** What a line can throw: the malformed-line error with the loop's
    counter, or the unfinished-quote error with the counter narrowed to 16
    bits. *)
Lemma parseLine_throws (b : builder) (n : Z) (line_string : string) (e : exception) :
  parseLine b n line_string = Throws e ->
  (exists s, e = MalformedLine n s) \/ (exists s, e = UnfinishedQuote (uint16 n) s).
Proof.
  unfold parseLine. intros H.
  step_bind H; [| by apply trimStringComment_no_throw in E].
  destruct (SV.size a =? 0)%nat; [discriminate H |].
  destruct (SV.front a) as [c|]; [| discriminate H].
  destruct (Ascii.eqb c ch_lbracket).
  - step_bind H; [| injection H as <-; right; eapply trimStringQuotes_throws; eauto].
    destruct (findFirstNotQuoted a0 ch_space) as [sep|]; [| discriminate H].
    step_bind H; [| injection H as <-; right; eapply trimStringQuotes_throws; eauto].
    step_bind H; [| injection H as <-; right; eapply trimStringQuotes_throws; eauto].
    discriminate H.
  - destruct (findEqPos a) as [eq_pos|].
    + step_bind H; [| injection H as <-; right; eapply trimStringQuotes_throws; eauto].
      step_bind H; [| injection H as <-; right; eapply trimStringQuotes_throws; eauto].
      discriminate H.
    + injection H as <-. left. by eexists.
Qed.

Lemma uint32_succ (m : Z) : uint32 (uint32 m + 1) = uint32 (m + 1).
Proof. unfold uint32. apply Z.add_mod_idemp_l. lia. Qed.

Lemma uint16_uint32 (m : Z) : uint16 (uint32 m) = uint16 m.
Proof.
  unfold uint16, uint32.
  apply Z.mod_mod_divide. exists (2 ^ 16)%Z. reflexivity.
Qed.

Lemma parseLoop_throws (lines : list string) :
  forall (b : builder) (m : Z) (e : exception),
    parseLoop b (uint32 m) lines = Throws e ->
    exists (i : nat) (line_string : string) (b' : builder),
      nth_error lines i = Some line_string /\
      parseLine b' (uint32 (m + Z.of_nat i)) line_string = Throws e.
Proof.
  induction lines as [| l rest IH]; intros b m e H; [discriminate H |].
  simpl in H. destruct (parseLine b (uint32 m) l) as [b1 | e1 |] eqn:E;
    simpl in H; [| | discriminate H].
  - rewrite uint32_succ in H. apply IH in H as (i & ls & b' & Hn & Hp).
    exists (S i), ls, b'. split; [exact Hn |].
    replace (m + Z.of_nat (S i))%Z with (m + 1 + Z.of_nat i)%Z by lia. exact Hp.
  - injection H as <-. exists 0, l, b. split; [reflexivity |].
    by rewrite Z.add_0_r.
Qed.

(** X25. Where the counter and its narrowing do not wrap, every error
    names the line it occurred on, counting from 1: the malformed-line
    error below 2^32 lines, the unfinished-quote error below 2^16. *)
Lemma parse_error_line (istream : string) (e : exception) :
  parseConfigFile istream = Throws e ->
  exists (i : nat) (line_string : string) (b : builder),
    nth_error (getlines istream) i = Some line_string /\
    parseLine b (uint32 (1 + Z.of_nat i)) line_string = Throws e /\
    ((exists s, e = MalformedLine (uint32 (1 + Z.of_nat i)) s) \/
     (exists s, e = UnfinishedQuote (uint16 (1 + Z.of_nat i)) s)) /\
    ((Z.of_nat (length (getlines istream)) < 2 ^ 16)%Z ->
       error_line e = Some (1 + Z.of_nat i)%Z).
Proof.
  unfold parseConfigFile. intros H.
  destruct (parseLoop _ 1%Z _) as [b1 | e1 |] eqn:E; simpl in H; try discriminate H.
  injection H as <-.
  change 1%Z with (uint32 1) in E.
  apply parseLoop_throws in E as (i & ls & b' & Hn & Hp).
  exists i, ls, b'. split; [exact Hn |]. split; [exact Hp |].
  pose proof (parseLine_throws _ _ _ _ Hp) as Hk.
  rewrite uint16_uint32 in Hk. split; [exact Hk |].
  intros Hlen.
  assert (Hi : (i < length (getlines istream))%nat)
    by (apply nth_error_Some; congruence).
  assert (H16 : uint16 (1 + Z.of_nat i) = (1 + Z.of_nat i)%Z)
    by (unfold uint16; apply Z.mod_small; lia).
  assert (H32 : uint32 (1 + Z.of_nat i) = (1 + Z.of_nat i)%Z)
    by (unfold uint32; apply Z.mod_small; lia).
  rewrite H16, H32 in Hk.
  destruct Hk as [[s ->] | [s ->]]; reflexivity.
Qed.

(** ** Primitive parser: integers *)

Lemma scan_digits_app (sv t : string) :
  no_leading_digit t = true ->
  forall (acc : Z) (n : nat), scan_digits (sv ++ t) acc n = scan_digits sv acc n.
Proof.
  intros Ht. induction sv as [| c r IH]; intros acc n; simpl.
  - destruct t as [| d t']; [reflexivity |].
    simpl in Ht. apply negb_true_iff in Ht. simpl. by rewrite Ht.
  - destruct (is_digit c); [apply IH | reflexivity].
Qed.

Lemma from_chars_app (T : int_type) (c : ascii) (r t : string) (value : Z) :
  no_leading_digit t = true ->
  from_chars T (String c r ++ t) value = from_chars T (String c r) value.
Proof.
  intros Ht. unfold from_chars.
  change (String c r ++ t) with (String c (r ++ t)). cbv beta iota.
  destruct (is_signed T && Ascii.eqb c ch_minus)%bool; cbv beta iota.
  - by rewrite scan_digits_app.
  - change (String c (r ++ t)) with (String c r ++ t).
    by rewrite scan_digits_app.
Qed.

Lemma Parser_parse_app (T : int_type) (sv t : string) (v : Z) :
  Parser_parse T sv = Returns v ->
  no_leading_digit t = true ->
  Parser_parse T (sv ++ t) = Returns v.
Proof.
  intros Hp Ht. destruct sv as [| c r].
  - vm_compute in Hp. discriminate Hp.
  - unfold Parser_parse in *. cbv zeta in *.
    rewrite from_chars_app by exact Ht.
    destruct (from_chars T (String c r) 0) as [res w].
    destruct (ec res); try discriminate Hp; exact Hp.
Qed.

Lemma scan_digits_spec (sv : string) :
  forall (acc : Z) (n : nat) (m : Z) (k : nat),
    scan_digits sv acc n = (m, k) ->
    n <= k /\ k - n <= String.length sv /\
    all_digits (SV.take (k - n) sv) = true /\
    no_leading_digit (SV.drop (k - n) sv) = true.
Proof.
  induction sv as [| c r IH]; intros acc n m k H; simpl in H.
  - injection H as _ <-. rewrite Nat.sub_diag. simpl. auto with lia.
  - destruct (is_digit c) eqn:Hc.
    + apply IH in H as (Hle & Hlen & Hd & Hn).
      replace (k - n) with (S (k - S n)) by lia. simpl.
      rewrite Hc, Hd, Hn. auto with lia.
    + injection H as _ <-. rewrite Nat.sub_diag. simpl. rewrite Hc. auto with lia.
Qed.

Lemma take_drop (n : nat) (sv : string) : SV.take n sv ++ SV.drop n sv = sv.
Proof.
  revert sv. induction n as [| n IH]; intros [| c r]; try reflexivity.
  change (String c (SV.take n r ++ SV.drop n r) = String c r).
  f_equal. apply IH.
Qed.

(** X26. What a successful parse has read: [from_chars] stopped after a
    leading part of the input that is a number as a whole, the rest does
    not go on with a digit, and the value returned is the value of that
    leading part alone. *)
Lemma Parser_parse_numeric_prefix (T : int_type) (sv : string) (v : Z) :
  Parser_parse T sv = Returns v ->
  let n := ptr (fst (from_chars T sv 0%Z)) in
  numeric_text T (SV.take n sv) = true /\
  no_leading_digit (SV.drop n sv) = true /\
  Parser_parse T (SV.take n sv) = Returns v.
Proof.
  intros Hp n.
  assert (Hn : numeric_text T (SV.take n sv) = true /\
               no_leading_digit (SV.drop n sv) = true).
  { subst n. unfold Parser_parse in Hp. cbv zeta in Hp.
    destruct sv as [| c r]; [vm_compute in Hp; discriminate Hp |].
    unfold from_chars in *. cbv beta iota in *.
    destruct (is_signed T && Ascii.eqb c ch_minus)%bool eqn:Hs; cbv beta iota in *.
    - destruct (scan_digits r 0%Z 0) as [m k] eqn:Hk.
      destruct k as [| k]; [discriminate Hp |].
      apply scan_digits_spec in Hk as (_ & Hlen & Hd & Hnd).
      rewrite Nat.sub_0_r in *.
      assert (Hptr : forall (b : bool) (e1 e2 : errc) (x y : Z),
                 ptr (fst (if b then ({| ptr := S (S k); ec := e1 |}, x)
                           else ({| ptr := S (S k); ec := e2 |}, y))) = S (S k))
        by (intros []; reflexivity).
      rewrite Hptr. change (SV.take (S (S k)) (String c r)) with (String c (SV.take (S k) r)).
      change (SV.drop (S (S k)) (String c r)) with (SV.drop (S k) r).
      split; [| exact Hnd].
      unfold numeric_text. cbv beta iota zeta. rewrite Hs, Hd, andb_true_r.
      destruct r as [| d r']; [simpl in Hlen; lia | reflexivity].
    - destruct (scan_digits (String c r) 0%Z 0) as [m k] eqn:Hk.
      destruct k as [| k]; [discriminate Hp |].
      apply scan_digits_spec in Hk as (_ & Hlen & Hd & Hnd).
      rewrite Nat.sub_0_r in *.
      assert (Hptr : forall (b : bool) (e1 e2 : errc) (x y : Z),
                 ptr (fst (if b then ({| ptr := S k; ec := e1 |}, x)
                           else ({| ptr := S k; ec := e2 |}, y))) = S k)
        by (intros []; reflexivity).
      rewrite Hptr. split; [| exact Hnd].
      change (SV.take (S k) (String c r)) with (String c (SV.take k r)) in *.
      unfold numeric_text. cbv beta iota zeta. rewrite Hs, Hd. reflexivity. }
  destruct Hn as [Hnum Hnd]. split; [exact Hnum |]. split; [exact Hnd |].
  rewrite <- (take_drop n sv) in Hp.
  destruct (SV.take n sv) as [| c r] eqn:Ht; [vm_compute in Hnum; discriminate Hnum |].
  unfold Parser_parse in *. cbv zeta in *.
  rewrite from_chars_app in Hp by exact Hnd.
  destruct (from_chars T (String c r) 0) as [res w].
  destruct (ec res); try discriminate Hp; exact Hp.
Qed.


(** C1, as the claim has it, fails: [12abc] is not a number as a whole,
    [from_chars] stops after two characters of five, and the parse
    returns 12. *)
Lemma Parser_parse_accepts_trailing_garbage :
  numeric_text int32_t "12abc" = false /\
  ptr (fst (from_chars int32_t "12abc" 0%Z)) = 2 /\
  SV.size "12abc" = 5 /\
  Parser_parse int32_t "12abc" = Returns 12%Z.
Proof. repeat split. Qed.


(** ** Comment stripping *)

Lemma length_app (a b : string) :
  String.length (a ++ b) = String.length a + String.length b.
Proof. induction a as [| c a IH]; simpl; [reflexivity | by rewrite IH]. Qed.

Lemma take_app (a b : string) : SV.take (String.length a) (a ++ b) = a.
Proof.
  induction a as [| c a IH]; simpl.
  - by destruct b.
  - by rewrite IH.
Qed.

Lemma get_app (a b : string) (i : nat) :
  String.get (String.length a + i) (a ++ b) = String.get i b.
Proof. induction a as [| c a IH]; simpl; [reflexivity | exact IH]. Qed.

Lemma find_first_of_from_none (set sv : string) :
  free_of set sv = true -> forall p, SV.find_first_of_from p sv set = None.
Proof.
  induction sv as [| c r IH]; intros H p; [reflexivity |].
  simpl in *. apply andb_true_iff in H as [Hc Hr].
  apply negb_true_iff in Hc. rewrite Hc. by apply IH.
Qed.

Lemma find_first_of_from_app (set pre : string) (c : ascii) (r : string) :
  free_of set pre = true ->
  SV.mem c set = true ->
  forall p, SV.find_first_of_from p (pre ++ String c r) set = Some (p + String.length pre).
Proof.
  intros Hpre Hc. induction pre as [| d pre IH]; intros p; simpl.
  - rewrite Hc. f_equal. lia.
  - simpl in Hpre. apply andb_true_iff in Hpre as [Hd Hpre].
    apply negb_true_iff in Hd. rewrite Hd, (IH Hpre). f_equal. lia.
Qed.

Lemma remove_suffix_app (pre post : string) :
  SV.remove_suffix (SV.size (pre ++ post) - String.length pre) (pre ++ post) = pre.
Proof.
  unfold SV.remove_suffix, SV.size. rewrite length_app.
  replace (String.length pre + String.length post
           - (String.length pre + String.length post - String.length pre))
    with (String.length pre) by lia.
  apply take_app.
Qed.

Lemma trimStringComment_no_comment_chars (sv : string) :
  free_of comment_chars sv = true -> trimStringComment sv = Returns sv.
Proof.
  intros H. unfold trimStringComment, SV.find_first_of.
  by rewrite (find_first_of_from_none _ _ H).
Qed.

(** Where the first [#] or [/] of the line begins a [#] or a [//], the
    line is cut there. *)
Lemma trimStringComment_cut (pre post : string) :
  free_of comment_chars pre = true ->
  trimStringComment (pre ++ String ch_hash post) = Returns pre /\
  trimStringComment (pre ++ String ch_slash (String ch_slash post)) = Returns pre /\
  trimStringComment pre = Returns pre.
Proof.
  intros Hpre.
  split; [| split]; unfold trimStringComment, SV.find_first_of.
  - rewrite (find_first_of_from_app _ _ _ _ Hpre) by reflexivity. simpl Nat.add.
    unfold SV.at_.
    rewrite <- (Nat.add_0_r (String.length pre)) at 1. rewrite get_app. simpl.
    by rewrite remove_suffix_app.
  - rewrite (find_first_of_from_app _ _ _ _ Hpre) by reflexivity. simpl Nat.add.
    unfold SV.at_.
    rewrite <- (Nat.add_0_r (String.length pre)) at 1. rewrite !get_app. simpl.
    unfold SV.size at 1. rewrite length_app. simpl String.length.
    replace (String.length pre + 1 <? String.length pre + S (S (String.length post)))%nat
      with true by (symmetry; apply Nat.ltb_lt; lia).
    simpl. by rewrite remove_suffix_app.
  - by apply trimStringComment_no_comment_chars.
Qed.

(** C2, as the claim has it, fails: the search does not know about
    escapes, so the [#] after a backslash cuts the line. *)
Lemma trimStringComment_cuts_escaped_hash :
  spec_trimStringComment (bs ++ "#") = bs ++ "#" /\
  trimStringComment (bs ++ "#") = Returns bs.
Proof. repeat split. Qed.

(** A [/] that does not begin [//] ends the search: what follows it is
    kept, a later [#] or [//] included. *)
Lemma trimStringComment_stops_at_lone_slash :
  trimStringComment "a/b#c" = Returns "a/b#c" /\
  spec_trimStringComment "a/b#c" = "a/b" /\
  trimStringComment "a/b//c" = Returns "a/b//c".
Proof. repeat split. Qed.

Lemma find_first_of_from_get (set : string) (sv : string) :
  forall q p : nat,
    SV.find_first_of_from q sv set = Some p ->
    q <= p /\ exists c, String.get (p - q) sv = Some c.
Proof.
  induction sv as [| c r IH]; intros q p H; [discriminate H |].
  simpl in H. destruct (SV.mem c set).
  - injection H as <-. split; [lia |]. exists c. by rewrite Nat.sub_diag.
  - apply IH in H as (Hle & d & Hd). split; [lia |]. exists d.
    replace (p - q) with (S (p - S q)) by lia. exact Hd.
Qed.

Lemma get_in_range (sv : string) :
  forall i : nat, i < String.length sv -> exists c, String.get i sv = Some c.
Proof.
  induction sv as [| c r IH]; intros i Hi; simpl in Hi; [lia |].
  destruct i as [| i]; simpl; [by eexists |]. apply IH. lia.
Qed.

(** The two indexed reads of [trimStringComment] stay inside the view. *)
Lemma trimStringComment_in_bounds (sv : string) : trimStringComment sv <> OutOfBounds.
Proof.
  unfold trimStringComment, SV.find_first_of, SV.at_, SV.size.
  destruct (SV.find_first_of_from 0 sv comment_chars) as [p|] eqn:E; [| discriminate].
  apply find_first_of_from_get in E as (_ & c & Hc).
  rewrite Nat.sub_0_r in Hc. rewrite Hc.
  destruct (Ascii.eqb c ch_hash); [discriminate |].
  destruct (Ascii.eqb c ch_slash); simpl; [| discriminate].
  destruct (p + 1 <? String.length sv)%nat eqn:Hlt; [| discriminate].
  apply Nat.ltb_lt in Hlt.
  destruct (get_in_range sv (p + 1) Hlt) as [d ->].
  destruct (Ascii.eqb d ch_slash); discriminate.
Qed.

Lemma find_first_of_from_mem (set sv : string) :
  forall q p : nat,
    SV.find_first_of_from q sv set = Some p ->
    q <= p /\ exists c, String.get (p - q) sv = Some c /\ SV.mem c set = true.
Proof.
  induction sv as [| c r IH]; intros q p H; [discriminate H |].
  simpl in H. destruct (SV.mem c set) eqn:Hc.
  - injection H as <-. split; [lia |]. exists c. by rewrite Nat.sub_diag.
  - apply IH in H as (Hle & d & Hd & Hm). split; [lia |]. exists d.
    replace (p - q) with (S (p - S q)) by lia. auto.
Qed.

Lemma first_comment_from_none (sv : string) :
  forall q, first_comment_from q sv = None ->
  forall i,
    String.get i sv <> Some ch_hash /\
    (String.get i sv = Some ch_slash -> String.get (S i) sv <> Some ch_slash).
Proof.
  induction sv as [| c r IH]; intros q H i; [by split |].
  simpl in H.
  destruct (Ascii.eqb c ch_hash) eqn:Eh; [discriminate H |].
  destruct (Ascii.eqb c ch_slash &&
            match r with
            | String d _ => Ascii.eqb d ch_slash
            | EmptyString => false
            end)%bool eqn:Es; [discriminate H |].
  simpl in H. destruct i as [| i]; [| exact (IH _ H i)].
  simpl. split.
  - intros [= ->]. discriminate Eh.
  - intros [= ->] Hr. destruct r as [| d r']; [discriminate Hr |].
    simpl in Hr. injection Hr as ->. discriminate Es.
Qed.

Lemma first_comment_from_some (sv : string) :
  forall q p, first_comment_from q sv = Some p ->
  q <= p /\
  free_of (String ch_hash EmptyString) (SV.take (p - q) sv) = true /\
  (String.get (p - q) sv = Some ch_hash \/
   (String.get (p - q) sv = Some ch_slash /\
    String.get (S (p - q)) sv = Some ch_slash)).
Proof.
  induction sv as [| c r IH]; intros q p H; [discriminate H |].
  simpl in H.
  destruct (Ascii.eqb c ch_hash) eqn:Eh.
  { injection H as <-. rewrite Nat.sub_diag. apply Ascii.eqb_eq in Eh as ->.
    simpl. auto. }
  destruct (Ascii.eqb c ch_slash &&
            match r with
            | String d _ => Ascii.eqb d ch_slash
            | EmptyString => false
            end)%bool eqn:Es; simpl in H.
  - injection H as <-. rewrite Nat.sub_diag.
    apply andb_true_iff in Es as [Ec Er]. apply Ascii.eqb_eq in Ec as ->.
    destruct r as [| d r']; [discriminate Er |]. apply Ascii.eqb_eq in Er as ->.
    simpl. auto.
  - apply IH in H as (Hle & Hfree & Hcase).
    replace (p - q) with (S (p - S q)) by lia.
    split; [lia |]. split; [| exact Hcase].
    simpl. by rewrite Eh, Hfree.
Qed.

Lemma drop_get (sv : string) :
  forall i c, String.get i sv = Some c -> SV.drop i sv = String c (SV.drop (S i) sv).
Proof.
  induction sv as [| x r IH]; intros i c H; [discriminate H |].
  destruct i as [| i]; simpl in *; [by injection H as -> | by apply IH].
Qed.

Lemma free_of_comment_chars (s : string) :
  free_of (String ch_hash EmptyString) s = true ->
  free_of (String ch_slash EmptyString) s = true ->
  free_of comment_chars s = true.
Proof.
  induction s as [| c r IH]; [reflexivity |]. simpl.
  intros H1 H2.
  apply andb_true_iff in H1 as [Hh H1]. apply andb_true_iff in H2 as [Hs H2].
  rewrite (IH H1 H2), andb_true_r.
  destruct (Ascii.eqb c ch_hash); [discriminate Hh |].
  destruct (Ascii.eqb c ch_slash); [discriminate Hs | reflexivity].
Qed.

(** C2, as the code has it.  A line in which no [#] and no [//] occurs is
    left as it is, single [/] or not.  A line in which one occurs is cut
    at the first of them, whatever stands before it, a backslash or an
    open quote included, when no [/] stands before it. *)
Theorem trimStringComment_truncates (sv : string) :
  (first_comment sv = None -> trimStringComment sv = Returns sv) /\
  (forall p : nat,
     first_comment sv = Some p ->
     free_of (String ch_slash EmptyString) (SV.take p sv) = true ->
     trimStringComment sv = Returns (SV.take p sv)).
Proof.
  unfold first_comment. split.
  - intros Hn. unfold trimStringComment, SV.find_first_of, SV.at_, SV.size.
    destruct (SV.find_first_of_from 0 sv comment_chars) as [p|] eqn:E; [| reflexivity].
    apply find_first_of_from_mem in E as (_ & c & Hc & Hm).
    rewrite Nat.sub_0_r in Hc. rewrite Hc.
    destruct (first_comment_from_none _ _ Hn p) as [H1 H2].
    destruct (Ascii.eqb c ch_hash) eqn:Eh.
    { apply Ascii.eqb_eq in Eh as ->. by destruct H1. }
    destruct (Ascii.eqb c ch_slash) eqn:Es; [| reflexivity].
    apply Ascii.eqb_eq in Es as ->. simpl.
    destruct (p + 1 <? String.length sv)%nat eqn:Hlt; [| reflexivity].
    apply Nat.ltb_lt in Hlt.
    destruct (get_in_range sv (p + 1) Hlt) as [d Hd]. rewrite Hd.
    destruct (Ascii.eqb d ch_slash) eqn:Ed; [| reflexivity].
    apply Ascii.eqb_eq in Ed as ->.
    rewrite Nat.add_1_r in Hd. by destruct (H2 Hc).
  - intros p Hs Hslash.
    apply first_comment_from_some in Hs as (_ & Hhash & Hcase).
    rewrite Nat.sub_0_r in *.
    pose proof (free_of_comment_chars _ Hhash Hslash) as Hfree.
    rewrite <- (take_drop p sv) at 1.
    destruct Hcase as [Hg | [Hg Hg']].
    + rewrite (drop_get _ _ _ Hg).
      by apply (trimStringComment_cut (SV.take p sv) (SV.drop (S p) sv)).
    + rewrite (drop_get _ _ _ Hg), (drop_get _ _ _ Hg').
      by apply (trimStringComment_cut (SV.take p sv) (SV.drop (S (S p)) sv)).
Qed.

Lemma trimStringComment_truncates_witness :
  trimStringComment "k = a/b" = Returns "k = a/b" /\
  trimStringComment ("k = " ++ dq ++ "a#b" ++ dq) = Returns ("k = " ++ dq ++ "a") /\
  trimStringComment (bs ++ "x//y") = Returns (bs ++ "x").
Proof.
  split; [| split].
  - apply (proj1 (trimStringComment_truncates "k = a/b")). reflexivity.
  - apply (proj2 (trimStringComment_truncates ("k = " ++ dq ++ "a#b" ++ dq)) 6);
      reflexivity.
  - apply (proj2 (trimStringComment_truncates (bs ++ "x//y")) 2); reflexivity.
Defined.

(** ** Lines that are skipped *)

Lemma find_first_not_of_from_app (set ws : string) (c : ascii) (rest : string) :
  made_of set ws = true ->
  SV.mem c set = false ->
  forall p, SV.find_first_not_of_from p (ws ++ String c rest) set
            = Some (p + String.length ws).
Proof.
  intros Hws Hc. induction ws as [| d ws IH]; intros p; simpl.
  - rewrite Hc. f_equal. lia.
  - simpl in Hws. apply andb_true_iff in Hws as [Hd Hws].
    rewrite Hd, (IH Hws). f_equal. lia.
Qed.

Lemma drop_app (a b : string) : SV.drop (String.length a) (a ++ b) = b.
Proof. induction a as [| c a IH]; simpl; [reflexivity | exact IH]. Qed.

Lemma find_last_not_of_from_some (set sv : string) :
  forall p q : nat,
    q <= p ->
    exists l, SV.find_last_not_of_from p (Some q) sv set = Some l /\ q <= l.
Proof.
  induction sv as [| c r IH]; intros p q Hle; simpl.
  - exists q. auto.
  - destruct (SV.mem c set).
    + apply IH. lia.
    + destruct (IH (S p) p) as (l & Hl & Hpl); [lia |].
      exists l. split; [exact Hl | lia].
Qed.

(** Trimming a text that has a character outside the trim set: the white
    space before that character goes, the character stays in front. *)
Lemma trimStringViewEnds_front (set ws : string) (c : ascii) (rest : string) :
  made_of set ws = true ->
  SV.mem c set = false ->
  exists k,
    trimStringViewEnds (ws ++ String c rest) set = String c (SV.take k rest) /\
    forall d rest', rest = String d rest' -> SV.mem d set = false -> 1 <= k.
Proof.
  intros Hws Hc. unfold trimStringViewEnds, SV.find_first_not_of.
  rewrite (find_first_not_of_from_app _ _ _ _ Hws Hc). simpl Nat.add.
  unfold SV.remove_prefix. rewrite drop_app.
  unfold SV.find_last_not_of. simpl SV.find_last_not_of_from. rewrite Hc.
  destruct (find_last_not_of_from_some set rest 1 0) as (l & Hl & _); [lia |].
  rewrite Hl. unfold SV.remove_suffix, SV.size. simpl String.length.
  exists (Nat.min (String.length rest) l). split.
  - replace (S (String.length rest) - (S (String.length rest) - (l + 1)))
      with (S (Nat.min (String.length rest) l)) by lia.
    reflexivity.
  - intros d rest' -> Hd. simpl in Hl. rewrite Hd in Hl.
    destruct (find_last_not_of_from_some set rest' 2 1) as (l' & Hl' & Hle); [lia |].
    rewrite Hl' in Hl. injection Hl as <-. simpl String.length. lia.
Qed.

Lemma trimStringComment_hash_first (r : string) :
  trimStringComment (String ch_hash r) = Returns EmptyString.
Proof.
  unfold trimStringComment, SV.remove_suffix, SV.size. simpl.
  by rewrite Nat.sub_diag.
Qed.

Lemma trimStringComment_slashes_first (r : string) :
  trimStringComment (String ch_slash (String ch_slash r)) = Returns EmptyString.
Proof.
  unfold trimStringComment, SV.remove_suffix, SV.size. simpl.
  by rewrite Nat.sub_diag.
Qed.

(** X27. The empty line and the line that holds a comment only, with or
    without white space before it, leave the builder (the table and the
    current section) as it was. *)
Lemma comment_line_skipped (b : builder) (n : Z) (ws rest : string) :
  made_of default_trim_chars ws = true ->
  parseLine b n EmptyString = Returns b /\
  parseLine b n (ws ++ String ch_hash rest) = Returns b /\
  parseLine b n (ws ++ String ch_slash (String ch_slash rest)) = Returns b.
Proof.
  intros Hws. split; [reflexivity |]. split.
  - unfold parseLine.
    destruct (trimStringViewEnds_front default_trim_chars ws ch_hash rest Hws eq_refl)
      as (k & -> & _).
    by rewrite trimStringComment_hash_first.
  - unfold parseLine.
    destruct (trimStringViewEnds_front default_trim_chars ws ch_slash
                (String ch_slash rest) Hws eq_refl) as (k & -> & Hk).
    specialize (Hk ch_slash rest eq_refl eq_refl).
    destruct k as [| k]; [lia |]. simpl SV.take.
    by rewrite trimStringComment_slashes_first.
Qed.

Lemma find_first_not_of_from_made_of (set sv : string) :
  made_of set sv = true -> forall p, SV.find_first_not_of_from p sv set = None.
Proof.
  induction sv as [| c r IH]; intros H p; simpl; [reflexivity |].
  simpl in H. apply andb_true_iff in H as [Hc Hr]. rewrite Hc. by apply IH.
Qed.

Lemma find_last_not_of_from_made_of (set sv : string) :
  made_of set sv = true -> forall p, SV.find_last_not_of_from p None sv set = None.
Proof.
  induction sv as [| c r IH]; intros H p; simpl; [reflexivity |].
  simpl in H. apply andb_true_iff in H as [Hc Hr]. rewrite Hc. by apply IH.
Qed.

(** A line of white space only is not trimmed at all. *)
Lemma trimStringViewEnds_all_trim_chars (set sv : string) :
  made_of set sv = true -> trimStringViewEnds sv set = sv.
Proof.
  intros H. unfold trimStringViewEnds, SV.find_first_not_of, SV.find_last_not_of.
  by rewrite (find_first_not_of_from_made_of _ _ H), (find_last_not_of_from_made_of _ _ H).
Qed.

(** A header in which no separator is found: the text between the
    brackets is the section name as it stands, the subsection key is
    empty. *)
Lemma singleton_header (b : builder) (n : Z) (line_string r interior : string) :
  trimStringComment (trimStringViewEnds line_string default_trim_chars)
    = Returns (String ch_lbracket r) ->
  trimStringQuotes (String ch_lbracket r) (uint16 n) ch_lbracket ch_rbracket
    = Returns interior ->
  findFirstNotQuoted interior ch_space = None ->
  parseLine b n line_string = Returns (select (ct b) interior EmptyString) /\
  cur_section (select (ct b) interior EmptyString) = (interior, EmptyString).
Proof.
  intros H1 H2 H3. unfold parseLine. rewrite H1. simpl.
  rewrite H2. simpl. rewrite H3. auto.
Qed.

(** ** Lines of white space *)

Lemma findFirstNotQuoted_from_absent (sv : string) (ch : ascii) :
  free_of (String ch EmptyString) sv = true ->
  forall (p : nat) (quoted escaped : bool),
    findFirstNotQuoted_from p quoted escaped sv ch = None.
Proof.
  induction sv as [| c r IH]; intros H p quoted escaped; [reflexivity |].
  simpl in H. apply andb_true_iff in H as [Hc Hr].
  destruct (Ascii.eqb c ch) eqn:E; [discriminate Hc |].
  simpl. rewrite E.
  destruct (Ascii.eqb c ch_backslash); [by apply IH |].
  destruct (Ascii.eqb c ch_dquote); by apply IH.
Qed.

Lemma made_of_trim_chars_free (set ws : string) :
  SV.mem ch_space set = false ->
  SV.mem ch_tab set = false ->
  made_of default_trim_chars ws = true ->
  free_of set ws = true.
Proof.
  intros Hs Ht. induction ws as [| c r IH]; intros H; [reflexivity |].
  simpl in H. apply andb_true_iff in H as [Hc Hr].
  simpl. rewrite (IH Hr), andb_true_r.
  destruct (Ascii.eqb c ch_space) eqn:E1.
  - apply Ascii.eqb_eq in E1 as ->. by rewrite Hs.
  - destruct (Ascii.eqb c ch_tab) eqn:E2; [| discriminate Hc].
    apply Ascii.eqb_eq in E2 as ->. by rewrite Ht.
Qed.

(** Every line made of spaces and tabs, one or more, stops the parse with
    the malformed-line error. *)
Lemma whitespace_line_throws (b : builder) (n : Z) (c : ascii) (r : string) :
  made_of default_trim_chars (String c r) = true ->
  parseLine b n (String c r) = Throws (MalformedLine n (String c r)).
Proof.
  intros H. unfold parseLine.
  rewrite (trimStringViewEnds_all_trim_chars _ _ H).
  pose proof (made_of_trim_chars_free comment_chars _ eq_refl eq_refl H) as Hfree.
  rewrite (trimStringComment_no_comment_chars _ Hfree).
  simpl bind. simpl SV.size. simpl Nat.eqb. cbv iota.
  unfold SV.front, SV.at_. simpl String.get. cbv iota.
  assert (Hc : Ascii.eqb c ch_lbracket = false).
  { simpl in H. apply andb_true_iff in H as [Hc _].
    destruct (Ascii.eqb c ch_space) eqn:E1.
    - by apply Ascii.eqb_eq in E1 as ->.
    - destruct (Ascii.eqb c ch_tab) eqn:E2; [| discriminate Hc].
      by apply Ascii.eqb_eq in E2 as ->. }
  rewrite Hc. unfold findEqPos, findFirstNotQuoted.
  by rewrite (findFirstNotQuoted_from_absent _ _
                (made_of_trim_chars_free (String ch_eq EmptyString) _ eq_refl eq_refl H)).
Qed.

(** * Further properties of the lexical helpers *)

(** ** Trimming *)

Lemma find_last_not_of_from_found (set ws : string) :
  made_of set ws = true ->
  forall (p : nat) (found : option nat),
    SV.find_last_not_of_from p found ws set = found.
Proof.
  induction ws as [| c r IH]; intros H p found; simpl; [reflexivity |].
  simpl in H. apply andb_true_iff in H as [Hc Hr]. rewrite Hc. by apply IH.
Qed.

Lemma find_last_not_of_from_snoc (set a : string) (d : ascii) (ws : string) :
  SV.mem d set = false ->
  made_of set ws = true ->
  forall (p : nat) (found : option nat),
    SV.find_last_not_of_from p found (a ++ String d ws) set
    = Some (p + String.length a).
Proof.
  intros Hd Hws. induction a as [| c a IH]; intros p found; simpl.
  - rewrite Hd, (find_last_not_of_from_found _ _ Hws). f_equal. lia.
  - rewrite IH. f_equal. lia.
Qed.

Lemma app_assoc_string (a b c : string) : (a ++ b) ++ c = a ++ b ++ c.
Proof.
  induction a as [| x a IH]; [reflexivity |].
  change (String x ((a ++ b) ++ c) = String x (a ++ b ++ c)). by rewrite IH.
Qed.

Lemma app_empty_r (a : string) : a ++ EmptyString = a.
Proof.
  induction a as [| x a IH]; [reflexivity |].
  change (String x (a ++ EmptyString) = String x a). by rewrite IH.
Qed.

Lemma back_snoc (sv : string) (d : ascii) :
  SV.back sv = Some d -> exists a, sv = a ++ String d EmptyString.
Proof.
  unfold SV.back, SV.size, SV.at_.
  induction sv as [| c r IH]; simpl; [discriminate |].
  destruct r as [| c' r'].
  - simpl. intros [= ->]. by exists EmptyString.
  - intros H. destruct (IH H) as [a Ha]. exists (String c a).
    change (String c (String c' r') = String c (a ++ String d EmptyString)).
    by rewrite Ha.
Qed.

Lemma back_of_snoc (a : string) (d : ascii) :
  SV.back (a ++ String d EmptyString) = Some d.
Proof.
  unfold SV.back, SV.size, SV.at_. rewrite length_app. simpl String.length.
  replace (String.length a + 1) with (S (String.length a)) by lia.
  rewrite <- (Nat.add_0_r (String.length a)). by rewrite get_app.
Qed.

(** The shape every trim has: white space, a core that begins and ends
    outside the trim set, white space. *)
Lemma trim_core (set ws1 core ws2 : string) (c d : ascii) :
  made_of set ws1 = true ->
  made_of set ws2 = true ->
  SV.front core = Some c -> SV.mem c set = false ->
  SV.back core = Some d -> SV.mem d set = false ->
  trimStringViewEnds (ws1 ++ core ++ ws2) set = core.
Proof.
  intros H1 H2 Hf Hc Hb Hd.
  destruct (back_snoc _ _ Hb) as [a Ha].
  assert (Hsv : core ++ ws2 = a ++ String d ws2)
    by (rewrite Ha, app_assoc_string; reflexivity).
  assert (Hlen : String.length core = String.length a + 1)
    by (rewrite Ha, length_app; reflexivity).
  destruct core as [| c' rest]; [discriminate Hf |].
  injection Hf as ->.
  unfold trimStringViewEnds, SV.find_first_not_of.
  change (ws1 ++ String c rest ++ ws2) with (ws1 ++ String c (rest ++ ws2)).
  rewrite (find_first_not_of_from_app _ _ _ _ H1 Hc). simpl Nat.add.
  unfold SV.remove_prefix. rewrite drop_app.
  change (String c (rest ++ ws2)) with (String c rest ++ ws2).
  unfold SV.find_last_not_of. rewrite Hsv at 1.
  rewrite (find_last_not_of_from_snoc _ _ _ _ Hd H2). simpl Nat.add.
  unfold SV.remove_suffix, SV.size. rewrite length_app, Hlen.
  replace (String.length a + 1 + String.length ws2
           - (String.length a + 1 + String.length ws2 - (String.length a + 1)))
    with (String.length a + 1) by lia.
  rewrite <- Hlen. apply take_app.
Qed.

Lemma back_app_nonempty (a : string) (c : ascii) (r : string) :
  SV.back (a ++ String c r) = SV.back (String c r).
Proof.
  unfold SV.back, SV.size, SV.at_. rewrite length_app. simpl String.length.
  replace (String.length a + S (String.length r))
    with (S (String.length a + String.length r)) by lia.
  by rewrite get_app.
Qed.

Lemma trim_decompose (set sv : string) :
  made_of set sv = true \/
  exists (ws1 core ws2 : string) (c d : ascii),
    sv = ws1 ++ core ++ ws2 /\
    made_of set ws1 = true /\ made_of set ws2 = true /\
    SV.front core = Some c /\ SV.mem c set = false /\
    SV.back core = Some d /\ SV.mem d set = false.
Proof.
  induction sv as [| x r IH]; [by left |].
  destruct (SV.mem x set) eqn:Hx.
  - destruct IH as [IH | (ws1 & core & ws2 & c & d & -> & H1 & H2 & Hf & Hc & Hb & Hd)].
    + left. simpl. by rewrite Hx, IH.
    + right. exists (String x ws1), core, ws2, c, d.
      repeat split; try assumption. simpl. by rewrite Hx, H1.
  - right.
    destruct IH as [IH | (ws1 & core & ws2 & c & d & -> & H1 & H2 & Hf & Hc & Hb & Hd)].
    + exists EmptyString, (String x EmptyString), r, x, x. repeat split; assumption.
    + exists EmptyString, (String x (ws1 ++ core)), ws2, x, d.
      repeat split; try assumption.
      * change (String x (ws1 ++ core ++ ws2) = String x ((ws1 ++ core) ++ ws2)).
        by rewrite app_assoc_string.
      * destruct core as [| c' rest]; [discriminate Hf |].
        change (String x (ws1 ++ String c' rest))
          with ((String x ws1) ++ String c' rest).
        by rewrite back_app_nonempty.
Qed.

(** X1. Trimming removes the leading and the trailing characters of the
    trim set and nothing else: around a core that begins and ends
    outside the set, whatever the core holds in between. *)
Theorem trimStringViewEnds_strips (set ws1 core ws2 : string) (c d : ascii) :
  made_of set ws1 = true ->
  made_of set ws2 = true ->
  SV.front core = Some c -> SV.mem c set = false ->
  SV.back core = Some d -> SV.mem d set = false ->
  trimStringViewEnds (ws1 ++ core ++ ws2) set = core.
Proof. apply trim_core. Qed.

Lemma trimStringViewEnds_strips_witness :
  trimStringViewEnds (String ch_tab " " ++ "a b" ++ String ch_space (String ch_tab ""))
    default_trim_chars = "a b".
Proof.
  apply (trimStringViewEnds_strips default_trim_chars (String ch_tab " ") "a b"
           (String ch_space (String ch_tab "")) "a" "b"); reflexivity.
Defined.

(** X2. Trimming twice is trimming once, for every text and trim set. *)
Theorem trimStringViewEnds_idempotent (sv set : string) :
  trimStringViewEnds (trimStringViewEnds sv set) set = trimStringViewEnds sv set.
Proof.
  destruct (trim_decompose set sv)
    as [H | (ws1 & core & ws2 & c & d & -> & H1 & H2 & Hf & Hc & Hb & Hd)].
  - by rewrite !(trimStringViewEnds_all_trim_chars _ _ H).
  - rewrite (trim_core _ _ _ _ _ _ H1 H2 Hf Hc Hb Hd).
    rewrite <- (app_empty_r core) at 1.
    by apply (trim_core set EmptyString core EmptyString c d).
Qed.

(** X3. Unless the text consists of trim characters only, what trimming
    returns neither begins nor ends with a trim character. *)
Theorem trimStringViewEnds_ends (sv set : string) :
  made_of set sv = false ->
  exists c d : ascii,
    SV.front (trimStringViewEnds sv set) = Some c /\ SV.mem c set = false /\
    SV.back (trimStringViewEnds sv set) = Some d /\ SV.mem d set = false.
Proof.
  intros Hsv.
  destruct (trim_decompose set sv)
    as [H | (ws1 & core & ws2 & c & d & -> & H1 & H2 & Hf & Hc & Hb & Hd)].
  - congruence.
  - rewrite (trim_core _ _ _ _ _ _ H1 H2 Hf Hc Hb Hd). by exists c, d.
Qed.

Lemma trimStringViewEnds_ends_witness :
  exists c d : ascii,
    SV.front (trimStringViewEnds "  k = v  " default_trim_chars) = Some c /\
    SV.mem c default_trim_chars = false /\
    SV.back (trimStringViewEnds "  k = v  " default_trim_chars) = Some d /\
    SV.mem d default_trim_chars = false.
Proof.
  apply (trimStringViewEnds_ends "  k = v  " default_trim_chars). reflexivity.
Defined.

(** ** Quote-aware search *)

Lemma findFirstNotQuoted_from_get (sv : string) (ch : ascii) :
  forall (q : nat) (quoted escaped : bool) (p : nat),
    findFirstNotQuoted_from q quoted escaped sv ch = Some p ->
    q <= p /\ String.get (p - q) sv = Some ch.
Proof.
  induction sv as [| c r IH]; intros q quoted escaped p H; [discriminate H |].
  assert (Hrec : forall qu es,
             findFirstNotQuoted_from (S q) qu es r ch = Some p ->
             q <= p /\ String.get (p - q) (String c r) = Some ch).
  { intros qu es Hr. apply IH in Hr as [Hle Hg]. split; [lia |].
    replace (p - q) with (S (p - S q)) by lia. exact Hg. }
  simpl in H.
  destruct (Ascii.eqb c ch_backslash); [by eapply Hrec |].
  destruct (Ascii.eqb c ch_dquote); [by eapply Hrec |].
  destruct (Ascii.eqb c ch) eqn:E; [| by eapply Hrec].
  destruct (negb escaped && negb quoted)%bool; [| by eapply Hrec].
  injection H as <-. apply Ascii.eqb_eq in E as ->.
  rewrite Nat.sub_diag. auto.
Qed.

(** X4. A position [findFirstNotQuoted] returns lies inside the text and
    holds the character that was searched for. *)
Theorem findFirstNotQuoted_sound (sv : string) (ch : ascii) (p : nat) :
  findFirstNotQuoted sv ch = Some p ->
  p < SV.size sv /\ SV.at_ sv p = Some ch.
Proof.
  intros H. apply findFirstNotQuoted_from_get in H as [_ H].
  rewrite Nat.sub_0_r in H. split; [| exact H].
  unfold SV.size. clear -H. revert p H.
  induction sv as [| c r IH]; intros p H; [discriminate H |].
  destruct p as [| p]; simpl in *; [lia |]. apply IH in H. lia.
Qed.

Lemma findFirstNotQuoted_sound_witness :
  4 < SV.size "key = value" /\ SV.at_ "key = value" 4 = Some ch_eq.
Proof. apply (findFirstNotQuoted_sound "key = value" ch_eq 4). reflexivity. Defined.

Lemma not_special (c : ascii) (r : string) :
  free_of (bs ++ dq) (String c r) = true ->
  Ascii.eqb c ch_backslash = false /\ Ascii.eqb c ch_dquote = false /\
  free_of (bs ++ dq) r = true.
Proof.
  intros H.
  change (free_of (bs ++ dq) (String c r))
    with (negb (SV.mem c (String ch_backslash (String ch_dquote EmptyString)))
          && free_of (bs ++ dq) r)%bool in H.
  apply andb_true_iff in H as [Hc Hr]. apply negb_true_iff in Hc.
  apply mem_false_cons in Hc as [Hb Hc]. apply mem_false_cons in Hc as [Hq _].
  auto.
Qed.

Lemma findFirstNotQuoted_from_plain (sv : string) (ch : ascii) :
  free_of (bs ++ dq) sv = true ->
  forall p, findFirstNotQuoted_from p false false sv ch
            = SV.find_first_of_from p sv (String ch EmptyString).
Proof.
  induction sv as [| c r IH]; intros H p; [reflexivity |].
  apply not_special in H as (Hb & Hq & Hr).
  simpl. rewrite Hb, Hq. destruct (Ascii.eqb c ch); [reflexivity | by apply IH].
Qed.

(** X5. In a text with no backslash and no double quote the search
    returns the first occurrence of the character, if there is one. *)
Theorem findFirstNotQuoted_plain (sv : string) (ch : ascii) :
  free_of (bs ++ dq) sv = true ->
  findFirstNotQuoted sv ch = SV.find_first_of sv (String ch EmptyString).
Proof. intros H. by apply findFirstNotQuoted_from_plain. Qed.

Lemma findFirstNotQuoted_plain_witness :
  findFirstNotQuoted "a=b=c" ch_eq = SV.find_first_of "a=b=c" (String ch_eq EmptyString).
Proof. apply (findFirstNotQuoted_plain "a=b=c" ch_eq). reflexivity. Defined.

Lemma findFirstNotQuoted_from_shift (sv : string) (ch : ascii) :
  forall (k p : nat) (quoted escaped : bool),
    findFirstNotQuoted_from (k + p) quoted escaped sv ch
    = Nat.add k <$> findFirstNotQuoted_from p quoted escaped sv ch.
Proof.
  induction sv as [| c r IH]; intros k p quoted escaped; [reflexivity |].
  simpl. rewrite <- !Nat.add_succ_r.
  destruct (Ascii.eqb c ch_backslash); [apply IH |].
  destruct (Ascii.eqb c ch_dquote); [apply IH |].
  destruct (Ascii.eqb c ch); [| apply IH].
  destruct (negb escaped && negb quoted)%bool; [reflexivity | apply IH].
Qed.

Lemma findFirstNotQuoted_from_quoted (body rest : string) (ch : ascii) :
  free_of (bs ++ dq) body = true ->
  forall p, findFirstNotQuoted_from p true false (body ++ String ch_dquote rest) ch
            = findFirstNotQuoted_from (String.length body + 1 + p) false false rest ch.
Proof.
  induction body as [| c r IH]; intros H p.
  - reflexivity.
  - apply not_special in H as (Hb & Hq & Hr).
    change (String c r ++ String ch_dquote rest)
      with (String c (r ++ String ch_dquote rest)).
    simpl. rewrite Hb, Hq, (IH Hr).
    replace (String.length r + 1 + S p) with (S (String.length r + 1 + p)) by lia.
    destruct (Ascii.eqb c ch); reflexivity.
Qed.

(** X6. A run between two double quotes is passed over: whatever the run
    holds (the character searched for included, backslashes and quotes
    excluded), the search goes on after the closing quote. *)
Theorem findFirstNotQuoted_skips_quoted (body rest : string) (ch : ascii) :
  free_of (bs ++ dq) body = true ->
  findFirstNotQuoted (String ch_dquote (body ++ String ch_dquote rest)) ch
  = Nat.add (String.length body + 2) <$> findFirstNotQuoted rest ch.
Proof.
  intros H. unfold findFirstNotQuoted.
  change (findFirstNotQuoted_from 0 false false
            (String ch_dquote (body ++ String ch_dquote rest)) ch)
    with (findFirstNotQuoted_from 1 true false (body ++ String ch_dquote rest) ch).
  rewrite (findFirstNotQuoted_from_quoted _ _ _ H).
  rewrite <- findFirstNotQuoted_from_shift. f_equal. lia.
Qed.

Lemma findFirstNotQuoted_skips_quoted_witness :
  findFirstNotQuoted (String ch_dquote ("a = b" ++ String ch_dquote " = c")) ch_eq
  = Nat.add (String.length "a = b" + 2) <$> findFirstNotQuoted " = c" ch_eq.
Proof. apply (findFirstNotQuoted_skips_quoted "a = b" " = c" ch_eq). reflexivity. Defined.

(** X7. A double quote and a backslash are never found: the search tests
    for them before it tests for the character it was given. *)
Theorem findFirstNotQuoted_never_quote_or_backslash (sv : string) :
  findFirstNotQuoted sv ch_dquote = None /\
  findFirstNotQuoted sv ch_backslash = None.
Proof.
  unfold findFirstNotQuoted.
  assert (G : forall (p : nat) (quoted escaped : bool),
             findFirstNotQuoted_from p quoted escaped sv ch_dquote = None /\
             findFirstNotQuoted_from p quoted escaped sv ch_backslash = None).
  { induction sv as [| c r IH]; intros p quoted escaped; [by split |].
    simpl.
    destruct (Ascii.eqb c ch_backslash); [apply IH |].
    destruct (Ascii.eqb c ch_dquote); apply IH. }
  apply G.
Qed.

(** ** Quote stripping *)

Lemma remove_suffix_snoc (a : string) (d : ascii) :
  SV.remove_suffix 1 (a ++ String d EmptyString) = a.
Proof.
  unfold SV.remove_suffix, SV.size. rewrite length_app. simpl String.length.
  replace (String.length a + 1 - 1) with (String.length a) by lia.
  apply take_app.
Qed.

Lemma trimStringQuotes_quoted (body : string) (n : Z) (front back : ascii) :
  trimStringQuotes (String front (body ++ String back EmptyString)) n front back
  = Returns body.
Proof.
  unfold trimStringQuotes, SV.front, SV.at_, SV.remove_prefix. cbn [String.get SV.drop].
  rewrite Ascii.eqb_refl.
  assert (Hsz : (SV.size (body ++ String back EmptyString) =? 0)%nat = false).
  { unfold SV.size. rewrite length_app. simpl String.length.
    apply Nat.eqb_neq. lia. }
  rewrite Hsz, back_of_snoc, Ascii.eqb_refl. simpl negb. cbv iota.
  by rewrite remove_suffix_snoc.
Qed.

Lemma trimStringQuotes_unquoted (c : ascii) (rest : string) (n : Z) (front back : ascii) :
  c <> front ->
  trimStringQuotes (String c rest) n front back = Returns (String c rest).
Proof.
  intros Hc. unfold trimStringQuotes, SV.front, SV.at_. cbn [String.get].
  apply Ascii.eqb_neq in Hc. by rewrite Hc.
Qed.

(** X8. What quote stripping returns, and when: a text that begins with
    another character than the opening quote comes back as it is, and a
    text made of the opening quote, a body and the closing quote comes
    back as the body, whatever the body holds.  Nothing else returns. *)
Theorem trimStringQuotes_returns (sv : string) (n : Z) (front back : ascii) (r : string) :
  trimStringQuotes sv n front back = Returns r <->
  (exists c, SV.front sv = Some c /\ c <> front /\ r = sv) \/
  sv = String front (r ++ String back EmptyString).
Proof.
  split.
  - destruct sv as [| c rest]; [discriminate |].
    destruct (Ascii.eqb c front) eqn:E.
    + apply Ascii.eqb_eq in E as ->. intros H. right.
      unfold trimStringQuotes, SV.front, SV.at_, SV.remove_prefix in H.
      cbn [String.get SV.drop] in H. rewrite Ascii.eqb_refl in H.
      destruct (SV.size rest =? 0)%nat; [discriminate H |].
      destruct (SV.back rest) as [d|] eqn:Hb; [| discriminate H].
      destruct (Ascii.eqb d back) eqn:Hd; simpl in H; [| discriminate H].
      apply Ascii.eqb_eq in Hd as ->.
      apply back_snoc in Hb as [a ->]. rewrite remove_suffix_snoc in H.
      by injection H as <-.
    + apply Ascii.eqb_neq in E. rewrite (trimStringQuotes_unquoted _ _ _ _ _ E).
      intros [= <-]. left. by exists c.
  - intros [(c & Hf & Hc & ->) | ->].
    + destruct sv as [| c' rest]; [discriminate Hf |]. injection Hf as ->.
      by apply trimStringQuotes_unquoted.
    + apply trimStringQuotes_quoted.
Qed.

Lemma trimStringQuotes_returns_witness :
  trimStringQuotes (String ch_dquote ("my server" ++ String ch_dquote EmptyString))
    7 ch_dquote ch_dquote = Returns "my server" /\
  trimStringQuotes "localhost" 7 ch_dquote ch_dquote = Returns "localhost".
Proof.
  split.
  - apply (trimStringQuotes_returns
             (String ch_dquote ("my server" ++ String ch_dquote EmptyString))
             7 ch_dquote ch_dquote "my server").
    right. reflexivity.
  - apply (trimStringQuotes_returns "localhost" 7 ch_dquote ch_dquote "localhost").
    left. exists "l"%char. repeat split. discriminate.
Defined.

(** X9. Quote stripping throws exactly on a text that begins with the
    opening quote and whose remainder is empty or does not end with the
    closing quote; the error carries the line number it was given and
    that remainder. *)
Theorem trimStringQuotes_throws_iff (sv : string) (n : Z) (front back : ascii)
    (e : exception) :
  trimStringQuotes sv n front back = Throws e <->
  exists r, sv = String front r /\ SV.back r <> Some back /\ e = UnfinishedQuote n r.
Proof.
  split.
  - destruct sv as [| c rest]; [discriminate |].
    destruct (Ascii.eqb c front) eqn:E.
    + apply Ascii.eqb_eq in E as ->. intros H. exists rest.
      unfold trimStringQuotes, SV.front, SV.at_, SV.remove_prefix in H.
      cbn [String.get SV.drop] in H. rewrite Ascii.eqb_refl in H.
      destruct rest as [| d rest']; [simpl in H; injection H as <-; by repeat split |].
      cbn [SV.size String.length Nat.eqb] in H.
      destruct (SV.back (String d rest')) as [x|]; [| discriminate H].
      destruct (Ascii.eqb x back) eqn:Hx; simpl in H; [discriminate H |].
      injection H as <-. apply Ascii.eqb_neq in Hx.
      repeat split. congruence.
    + apply Ascii.eqb_neq in E. rewrite (trimStringQuotes_unquoted _ _ _ _ _ E).
      discriminate.
  - intros (r & -> & Hb & ->).
    unfold trimStringQuotes, SV.front, SV.at_, SV.remove_prefix.
    cbn [String.get SV.drop]. rewrite Ascii.eqb_refl.
    destruct r as [| d r']; [reflexivity |].
    cbn [SV.size String.length Nat.eqb].
    destruct (back_nonempty d r') as [x Hx0]. rewrite Hx0 in *.
    destruct (Ascii.eqb x back) eqn:Hx; [| reflexivity].
    apply Ascii.eqb_eq in Hx as ->. by destruct Hb.
Qed.

Lemma trimStringQuotes_throws_iff_witness :
  trimStringQuotes (String ch_dquote "abc") 3 ch_dquote ch_dquote
  = Throws (UnfinishedQuote 3 "abc").
Proof.
  apply (trimStringQuotes_throws_iff (String ch_dquote "abc") 3 ch_dquote ch_dquote
           (UnfinishedQuote 3 "abc")).
  exists "abc". repeat split. discriminate.
Defined.

(** ** Comment stripping *)

Lemma take_length (a : string) : SV.take (String.length a) a = a.
Proof. induction a as [| c a IH]; simpl; [reflexivity | by rewrite IH]. Qed.

Lemma find_first_of_from_prefix (set sv : string) :
  forall q p : nat,
    SV.find_first_of_from q sv set = Some p ->
    q <= p /\ p - q < String.length sv /\
    free_of set (SV.take (p - q) sv) = true.
Proof.
  induction sv as [| c r IH]; intros q p H; [discriminate H |].
  simpl in H. destruct (SV.mem c set) eqn:Hc.
  - injection H as <-. rewrite Nat.sub_diag. simpl. auto with lia.
  - apply IH in H as (Hle & Hlt & Hfree).
    replace (p - q) with (S (p - S q)) by lia. simpl.
    rewrite Hc, Hfree. auto with lia.
Qed.

(** X10. Comment stripping always returns, and what it returns is the
    first [n] characters of the line: either the whole line, or the part
    before a [#] or a [//], a part that then holds neither [#] nor [/]. *)
Theorem trimStringComment_prefix (sv : string) :
  exists n : nat,
    trimStringComment sv = Returns (SV.take n sv) /\
    (n = SV.size sv \/
     (n < SV.size sv /\
      free_of comment_chars (SV.take n sv) = true /\
      (SV.at_ sv n = Some ch_hash \/
       (SV.at_ sv n = Some ch_slash /\ SV.at_ sv (n + 1) = Some ch_slash)))).
Proof.
  unfold trimStringComment, SV.find_first_of, SV.at_, SV.remove_suffix, SV.size.
  destruct (SV.find_first_of_from 0 sv comment_chars) as [p|] eqn:E.
  2: { exists (String.length sv). rewrite take_length. auto. }
  pose proof (find_first_of_from_get _ _ _ _ E) as (_ & c & Hc).
  apply find_first_of_from_prefix in E as (_ & Hlt & Hfree).
  rewrite Nat.sub_0_r in *. rewrite Hc.
  assert (Hcut : SV.take (SV.size sv - (SV.size sv - p)) sv = SV.take p sv)
    by (unfold SV.size; f_equal; lia).
  unfold SV.size in Hcut.
  destruct (Ascii.eqb c ch_hash) eqn:Eh.
  { apply Ascii.eqb_eq in Eh as ->. exists p. rewrite Hcut. auto 6. }
  destruct (Ascii.eqb c ch_slash) eqn:Es; simpl.
  2: { exists (String.length sv). rewrite take_length. auto. }
  apply Ascii.eqb_eq in Es as ->.
  destruct (p + 1 <? String.length sv)%nat eqn:Hp1.
  2: { exists (String.length sv). rewrite take_length. auto. }
  apply Nat.ltb_lt in Hp1.
  destruct (get_in_range sv (p + 1) Hp1) as [d Hd]. rewrite Hd.
  destruct (Ascii.eqb d ch_slash) eqn:Ed.
  - apply Ascii.eqb_eq in Ed as ->. exists p. rewrite Hcut. auto 8.
  - exists (String.length sv). rewrite take_length. auto.
Qed.

(** * Trailing text after a number *)

(** What the floating point [from_chars] reads is the same with trailing
    text that cannot continue the number. *)

Lemma count_digits_app (s t : string) :
  no_leading_digit t = true -> count_digits (s ++ t) = count_digits s.
Proof.
  intros Ht. induction s as [| c r IH].
  - destruct t as [| d t']; [reflexivity |].
    simpl in *. apply negb_true_iff in Ht. by rewrite Ht.
  - change (String c r ++ t) with (String c (r ++ t)). simpl.
    destruct (is_digit c); [by rewrite IH | reflexivity].
Qed.

Lemma count_digits_le (s : string) : count_digits s <= String.length s.
Proof.
  induction s as [| c r IH]; simpl; [lia |].
  destruct (is_digit c); lia.
Qed.

Lemma count_nchars_app (s t : string) :
  match t with String c _ => is_nchar c = false | EmptyString => True end ->
  count_nchars (s ++ t) = count_nchars s.
Proof.
  intros Ht. induction s as [| c r IH].
  - destruct t as [| d t']; [reflexivity |]. simpl. by rewrite Ht.
  - change (String c r ++ t) with (String c (r ++ t)). simpl.
    destruct (is_nchar c); [by rewrite IH | reflexivity].
Qed.

Lemma count_nchars_le (s : string) : count_nchars s <= String.length s.
Proof.
  induction s as [| c r IH]; simpl; [lia |].
  destruct (is_nchar c); lia.
Qed.

Lemma drop_app_le (s t : string) :
  forall n, n <= String.length s -> SV.drop n (s ++ t) = SV.drop n s ++ t.
Proof.
  induction s as [| c r IH]; intros n Hn; simpl in Hn.
  - by replace n with 0 by lia.
  - destruct n as [| n]; [reflexivity |].
    change (String c r ++ t) with (String c (r ++ t)). simpl. apply IH. lia.
Qed.

Lemma take_app_le (s t : string) :
  forall n, n <= String.length s -> SV.take n (s ++ t) = SV.take n s.
Proof.
  induction s as [| c r IH]; intros n Hn; simpl in Hn.
  - replace n with 0 by lia. by destruct t.
  - destruct n as [| n]; [reflexivity |].
    change (String c r ++ t) with (String c (r ++ t)). simpl.
    rewrite IH by lia. reflexivity.
Qed.

Lemma length_drop (s : string) :
  forall n, String.length (SV.drop n s) = String.length s - n.
Proof.
  induction s as [| c r IH]; intros [| n]; simpl; try reflexivity. apply IH.
Qed.

Lemma stops_decimal_digit (t : string) : stops_decimal t -> no_leading_digit t = true.
Proof. destruct t as [| c r]; [reflexivity |]. intros (H & _). simpl. by rewrite H. Qed.

Lemma match_exponent_stop (t : string) : stops_decimal t -> match_exponent t = 0.
Proof.
  destruct t as [| c r]; [reflexivity |]. intros (_ & _ & He & _). simpl. by rewrite He.
Qed.

Lemma match_exponent_app (s t : string) :
  stops_decimal t -> match_exponent (s ++ t) = match_exponent s.
Proof.
  intros Ht. pose proof (stops_decimal_digit _ Ht) as Hd.
  destruct s as [| c r];
    [change (EmptyString ++ t) with t; by rewrite (match_exponent_stop _ Ht) |].
  change (String c r ++ t) with (String c (r ++ t)).
  unfold match_exponent.
  destruct (Ascii.eqb (to_lower c) "e"); [| reflexivity].
  destruct r as [| d r'].
  - change (EmptyString ++ t) with t.
    destruct t as [| x t']; [reflexivity |].
    destruct Ht as (Hx & _ & _ & Hp & Hm). rewrite Hp, Hm. simpl. by rewrite Hx.
  - change (String d r' ++ t) with (String d (r' ++ t)).
    destruct (Ascii.eqb d ch_plus || Ascii.eqb d ch_minus)%bool eqn:E;
      rewrite ?E; cbv beta iota.
    + by rewrite (count_digits_app _ _ Hd).
    + change (String d (r' ++ t)) with (String d r' ++ t).
      by rewrite (count_digits_app _ _ Hd).
Qed.

Lemma match_exponent_le (s : string) : match_exponent s <= String.length s.
Proof.
  destruct s as [| c r]; [simpl; lia |].
  unfold match_exponent. destruct (Ascii.eqb (to_lower c) "e"); [| lia].
  destruct r as [| d r'].
  - simpl. lia.
  - destruct (Ascii.eqb d ch_plus || Ascii.eqb d ch_minus)%bool.
    + pose proof (count_digits_le r'). destruct (count_digits r'); simpl in *; lia.
    + pose proof (count_digits_le (String d r')).
      destruct (count_digits (String d r')); simpl in *; lia.
Qed.

Lemma match_decimal_app (s t : string) :
  stops_decimal t -> match_decimal (s ++ t) = match_decimal s.
Proof.
  intros Ht. pose proof (stops_decimal_digit _ Ht) as Hd.
  unfold match_decimal. rewrite (count_digits_app _ _ Hd).
  rewrite drop_app_le by apply count_digits_le.
  destruct (SV.drop (count_digits s) s) as [| c r].
  - change (EmptyString ++ t) with t.
    destruct t as [| x t']; [reflexivity |].
    pose proof (match_exponent_stop _ Ht) as He.
    destruct Ht as (_ & Hdot & _). rewrite Hdot, He.
    by rewrite Nat.add_0_r.
  - change (String c r ++ t) with (String c (r ++ t)).
    destruct (Ascii.eqb c ch_dot) eqn:E; rewrite ?E.
    + rewrite (count_digits_app _ _ Hd).
      rewrite drop_app_le by apply count_digits_le.
      by rewrite (match_exponent_app _ _ Ht).
    + change (String c (r ++ t)) with (String c r ++ t).
      by rewrite (match_exponent_app _ _ Ht).
Qed.

Lemma match_decimal_le (s : string) (n : nat) :
  match_decimal s = Some n -> n <= String.length s.
Proof.
  unfold match_decimal.
  pose proof (count_digits_le s) as H1.
  pose proof (length_drop s (count_digits s)) as HL.
  destruct (SV.drop (count_digits s) s) as [| c r] eqn:E.
  - destruct (count_digits s =? 0)%nat; [discriminate |]. intros [= <-]. exact H1.
  - simpl in HL.
    destruct (Ascii.eqb c ch_dot).
    + destruct (count_digits s + count_digits r =? 0)%nat; [discriminate |].
      intros [= <-].
      pose proof (count_digits_le r).
      pose proof (match_exponent_le (SV.drop (count_digits r) r)) as HE.
      rewrite length_drop in HE. lia.
    + destruct (count_digits s =? 0)%nat; [discriminate |]. intros [= <-].
      pose proof (match_exponent_le (String c r)) as HE. simpl in HE. lia.
Qed.

Lemma starts_with_ci_app (word : string) (t : string) :
  all_lower word = true ->
  stops_special t ->
  forall s, starts_with_ci word (s ++ t) = starts_with_ci word s.
Proof.
  intros Hw Ht. induction word as [| w word IH]; intros s.
  - by destruct s, t.
  - simpl in Hw. apply andb_true_iff in Hw as [Hl Hw].
    destruct s as [| c r].
    + change (EmptyString ++ t) with t.
      destruct t as [| x t']; [reflexivity |]. simpl.
      destruct Ht as (Hn & _).
      destruct (Ascii.eqb (to_lower x) w) eqn:E; [| reflexivity].
      apply Ascii.eqb_eq in E. exfalso.
      unfold is_nchar, is_alpha in Hn. rewrite E, Hl in Hn.
      by rewrite orb_true_r in Hn.
    + change (String c r ++ t) with (String c (r ++ t)). simpl.
      by rewrite (IH Hw).
Qed.

Lemma starts_with_ci_le (word : string) :
  forall s, starts_with_ci word s = true -> String.length word <= String.length s.
Proof.
  induction word as [| w word IH]; intros s H; simpl; [lia |].
  destruct s as [| c r]; [discriminate H |].
  simpl in H. apply andb_true_iff in H as [_ H]. apply IH in H. simpl. lia.
Qed.

Lemma match_special_app (s t : string) :
  stops_special t -> match_special (s ++ t) = match_special s.
Proof.
  intros Ht. unfold match_special.
  rewrite (starts_with_ci_app "infinity" _ eq_refl Ht).
  rewrite (starts_with_ci_app "inf" _ eq_refl Ht).
  rewrite (starts_with_ci_app "nan" _ eq_refl Ht).
  destruct (starts_with_ci "infinity" s); [reflexivity |].
  destruct (starts_with_ci "inf" s); [reflexivity |].
  destruct (starts_with_ci "nan" s) eqn:Hnan; [| reflexivity].
  apply starts_with_ci_le in Hnan. simpl in Hnan.
  rewrite drop_app_le by exact Hnan.
  destruct (SV.drop 3 s) as [| c r].
  - change (EmptyString ++ t) with t.
    destruct t as [| x t']; [reflexivity |].
    destruct Ht as (_ & Hl & _). by rewrite Hl.
  - change (String c r ++ t) with (String c (r ++ t)).
    destruct (Ascii.eqb c ch_lparen) eqn:E; rewrite ?E; [| reflexivity].
    assert (Hn : match t with
                 | String c _ => is_nchar c = false
                 | EmptyString => True
                 end) by (destruct t; [exact I | apply Ht]).
    rewrite (count_nchars_app _ _ Hn).
    rewrite drop_app_le by apply count_nchars_le.
    destruct (SV.drop (count_nchars r) r) as [| d r'].
    + change (EmptyString ++ t) with t.
      destruct t as [| x t']; [reflexivity |].
      destruct Ht as (_ & _ & Hr). by rewrite Hr.
    + reflexivity.
Qed.

Lemma match_special_le (s : string) (n : nat) :
  match_special s = Some n -> n <= String.length s.
Proof.
  unfold match_special.
  destruct (starts_with_ci "infinity" s) eqn:H1.
  { intros [= <-]. by apply starts_with_ci_le in H1. }
  destruct (starts_with_ci "inf" s) eqn:H2.
  { intros [= <-]. by apply starts_with_ci_le in H2. }
  destruct (starts_with_ci "nan" s) eqn:H3; [| discriminate].
  apply starts_with_ci_le in H3. simpl in H3.
  pose proof (length_drop s 3) as HL.
  destruct (SV.drop 3 s) as [| c r]; [intros [= <-]; exact H3 |].
  destruct (Ascii.eqb c ch_lparen); [| intros [= <-]; exact H3].
  pose proof (length_drop r (count_nchars r)) as HL'.
  destruct (SV.drop (count_nchars r) r) as [| d r']; [intros [= <-]; exact H3 |].
  destruct (Ascii.eqb d ch_rparen); intros [= <-]; [| exact H3].
  simpl in HL, HL'. lia.
Qed.

Lemma match_decimal_not_start (c : ascii) (r : string) :
  (is_digit c || Ascii.eqb c ch_dot)%bool = false ->
  match_decimal (String c r) = None.
Proof.
  intros H. apply orb_false_iff in H as [Hd Hdot].
  unfold match_decimal. simpl count_digits. rewrite Hd. simpl. by rewrite Hdot.
Qed.

Lemma float_match_app (sv t : string) (n : nat) :
  float_match sv = Some n ->
  cannot_continue_float sv t = true ->
  float_match (sv ++ t) = Some n /\ n <= String.length sv.
Proof.
  intros Hm Ht.
  destruct t as [| x t'].
  { rewrite app_empty_r. split; [exact Hm |].
    unfold float_match in Hm.
    assert (Hb : (match sv with
                  | String c _ => if Ascii.eqb c ch_minus then 1 else 0
                  | EmptyString => 0
                  end) + String.length (float_body sv) = String.length sv).
    { destruct sv as [| c r]; [reflexivity |]. simpl.
      destruct (Ascii.eqb c ch_minus); simpl; lia. }
    destruct (match_decimal (float_body sv)) as [k|] eqn:E1.
    - injection Hm as <-. apply match_decimal_le in E1. lia.
    - destruct (match_special (float_body sv)) as [k|] eqn:E2; [| discriminate Hm].
      injection Hm as <-. apply match_special_le in E2. lia. }
  assert (Hbody : float_body (sv ++ String x t') = float_body sv ++ String x t' /\
                  (match sv ++ String x t' with
                   | String c _ => if Ascii.eqb c ch_minus then 1 else 0
                   | EmptyString => 0
                   end) = (match sv with
                           | String c _ => if Ascii.eqb c ch_minus then 1 else 0
                           | EmptyString => 0
                           end) /\
                  (match sv with
                   | String c _ => if Ascii.eqb c ch_minus then 1 else 0
                   | EmptyString => 0
                   end) + String.length (float_body sv) = String.length sv).
  { destruct sv as [| c r]; [discriminate Hm |].
    change (String c r ++ String x t') with (String c (r ++ String x t')).
    simpl. destruct (Ascii.eqb c ch_minus); simpl; auto with lia. }
  destruct Hbody as (Hb1 & Hb2 & Hb3).
  unfold float_match in *. rewrite Hb1, Hb2.
  unfold cannot_continue_float in Ht.
  destruct (float_body sv) as [| b body] eqn:Eb; [discriminate Ht |].
  destruct (is_digit b || Ascii.eqb b ch_dot)%bool eqn:Ek.
  - assert (Hs : stops_decimal (String x t')).
    { apply negb_true_iff in Ht. repeat (apply orb_false_iff in Ht as [Ht ?]).
      by repeat split. }
    rewrite (match_decimal_app _ _ Hs).
    destruct (match_decimal (String b body)) as [k|] eqn:E1.
    + injection Hm as <-. split; [reflexivity |].
      apply match_decimal_le in E1. lia.
    + exfalso. apply orb_true_iff in Ek as [Ek | Ek].
      * unfold match_decimal in E1. simpl count_digits in E1. rewrite Ek in E1.
        destruct (SV.drop _ _) as [| y r'] ; [discriminate E1 |].
        destruct (Ascii.eqb y ch_dot); discriminate E1.
      * apply Ascii.eqb_eq in Ek as ->. vm_compute in Hm. discriminate Hm.
  - assert (Hs : stops_special (String x t')).
    { apply negb_true_iff in Ht. apply orb_false_iff in Ht as [Ht Hr].
      apply orb_false_iff in Ht as [Hn Hl]. by repeat split. }
    rewrite (match_decimal_not_start _ _ Ek) in Hm.
    change (String b body ++ String x t') with (String b (body ++ String x t')).
    rewrite (match_decimal_not_start _ _ Ek).
    change (String b (body ++ String x t')) with (String b body ++ String x t').
    rewrite (match_special_app _ _ Hs).
    destruct (match_special (String b body)) as [k|] eqn:E2; [| discriminate Hm].
    injection Hm as <-. split; [reflexivity |].
    apply match_special_le in E2. lia.
Qed.

Lemma Parser_parse_float_app {F : Type} (convert : string -> option F)
    (indeterminate : F) (sv t : string) (v : F) :
  Parser_parse_float convert indeterminate sv = Returns v ->
  cannot_continue_float sv t = true ->
  Parser_parse_float convert indeterminate (sv ++ t) = Returns v.
Proof.
  unfold Parser_parse_float, from_chars_float. cbv zeta. intros Hp Ht.
  destruct (float_match sv) as [n|] eqn:Hm; [| discriminate Hp].
  destruct (float_match_app _ _ _ Hm Ht) as [-> Hle].
  rewrite (take_app_le _ _ _ Hle).
  destruct (convert (SV.take n sv)); [exact Hp | discriminate Hp].
Qed.

(** C1, as the code has it.  [Parser<T>::parse] does not look at how far
    [from_chars] read, for an integral and for a floating point [T]
    alike: when it returns [v] on a text, it returns the same [v] on that
    text followed by anything that cannot continue the number (for an
    integer, anything that does not begin with a digit).  Trailing
    characters are dropped, not rejected. *)
Theorem Parser_parse_ignores_trailing :
  (forall (T : int_type) (sv t : string) (v : Z),
     Parser_parse T sv = Returns v ->
     no_leading_digit t = true ->
     Parser_parse T (sv ++ t) = Returns v) /\
  (forall (F : Type) (convert : string -> option F) (indeterminate : F)
          (sv t : string) (v : F),
     Parser_parse_float convert indeterminate sv = Returns v ->
     cannot_continue_float sv t = true ->
     Parser_parse_float convert indeterminate (sv ++ t) = Returns v).
Proof.
  split.
  - apply Parser_parse_app.
  - intros F. apply Parser_parse_float_app.
Qed.

Lemma Parser_parse_ignores_trailing_witness :
  Parser_parse int32_t ("-12" ++ "abc") = Returns (-12)%Z /\
  Parser_parse_float (fun s : string => Some s) EmptyString ("-1.5e3" ++ "abc")
    = Returns "-1.5e3".
Proof.
  split.
  - apply (proj1 Parser_parse_ignores_trailing int32_t "-12" "abc" (-12)%Z);
      reflexivity.
  - apply (proj2 Parser_parse_ignores_trailing string (fun s : string => Some s)
             EmptyString "-1.5e3" "abc" "-1.5e3"); reflexivity.
Defined.

(** The same for a floating point type, whatever the value of the text
    read is: of [12.5abc] four characters are read and the parse returns
    the value of [12.5], or throws the range error when that value is not
    representable. *)
Lemma Parser_parse_float_accepts_trailing_garbage :
  float_match "12.5abc" = Some 4 /\
  forall (F : Type) (convert : string -> option F) (indeterminate : F),
    Parser_parse_float convert indeterminate "12.5abc"
    = match convert "12.5" with
      | Some v => Returns v
      | None => Throws (NotRepresentable "12.5abc")
      end.
Proof.
  split; [reflexivity |]. intros F convert indeterminate.
  unfold Parser_parse_float, from_chars_float. cbv zeta.
  change (float_match "12.5abc") with (Some 4). cbv beta iota.
  change (SV.take 4 "12.5abc") with "12.5".
  by destruct (convert "12.5").
Qed.

(** * Further properties of the primitive parsers *)

Lemma scan_digits_zero (sv : string) (acc m : Z) (n k : nat) :
  scan_digits sv acc n = (m, k) -> (k = n <-> no_leading_digit sv = true).
Proof.
  destruct sv as [| c r]; simpl.
  - intros [= _ <-]. tauto.
  - destruct (is_digit c) eqn:Hc; simpl.
    + intros H. apply scan_digits_spec in H as (Hle & _). split; [lia | discriminate].
    + intros [= _ <-]. tauto.
Qed.

Lemma from_chars_unfold (T : int_type) (sv : string) (value : Z) :
  from_chars T sv value =
  let neg := match sv with
             | String c _ => (is_signed T && Ascii.eqb c ch_minus)%bool
             | EmptyString => false
             end in
  let '(mag, n) := scan_digits (unsigned_part T sv) 0%Z 0 in
  match n with
  | O => ({| ptr := 0; ec := errc_invalid_argument |}, value)
  | S _ =>
      let v := if neg then (- mag)%Z else mag in
      let p := if neg then S n else n in
      if ((int_min T <=? v)%Z && (v <=? int_max T)%Z)%bool
      then ({| ptr := p; ec := errc_none |}, v)
      else ({| ptr := p; ec := errc_result_out_of_range |}, value)
  end.
Proof.
  unfold from_chars, unsigned_part. destruct sv as [| c r]; [reflexivity |].
  destruct (is_signed T && Ascii.eqb c ch_minus)%bool; reflexivity.
Qed.

(** A value the integer parse returns is a value of the type asked for:
    it lies between the least and the greatest value of [T]. *)
Theorem Parser_parse_in_range (T : int_type) (sv : string) (v : Z) :
  Parser_parse T sv = Returns v -> (int_min T <= v <= int_max T)%Z.
Proof.
  unfold Parser_parse. cbv zeta. rewrite from_chars_unfold. cbv zeta.
  destruct (scan_digits (unsigned_part T sv) 0%Z 0) as [m k].
  destruct k as [| k]; [discriminate |].
  match goal with
  | |- context [if ?b then _ else _] => destruct b eqn:Hb
  end; [| discriminate].
  simpl. intros [= <-].
  apply andb_true_iff in Hb as [H1 H2].
  apply Z.leb_le in H1, H2. lia.
Qed.

Lemma Parser_parse_in_range_witness :
  (int_min int32_t <= 8080 <= int_max int32_t)%Z.
Proof. apply (Parser_parse_in_range int32_t "8080" 8080%Z). reflexivity. Defined.

Lemma scan_digits_value (ds t : string) :
  all_digits ds = true ->
  no_leading_digit t = true ->
  forall (acc : Z) (n : nat),
    scan_digits (ds ++ t) acc n
    = ((acc * 10 ^ Z.of_nat (String.length ds) + decimal_value ds)%Z,
       n + String.length ds).
Proof.
  intros Hds Ht. induction ds as [| c r IH]; intros acc n.
  - change (EmptyString ++ t) with t.
    destruct t as [| x t']; simpl.
    + f_equal; lia.
    + simpl in Ht. apply negb_true_iff in Ht. rewrite Ht. f_equal; lia.
  - simpl in Hds. apply andb_true_iff in Hds as [Hc Hr].
    change (String c r ++ t) with (String c (r ++ t)).
    cbn [scan_digits]. rewrite Hc, (IH Hr).
    cbn [String.length decimal_value].
    rewrite Nat2Z.inj_succ, Z.pow_succ_r by lia.
    f_equal; [ring | lia].
Qed.

Lemma digit_not_minus (c : ascii) : is_digit c = true -> Ascii.eqb c ch_minus = false.
Proof.
  intros H. destruct (Ascii.eqb c ch_minus) eqn:E; [| reflexivity].
  apply Ascii.eqb_eq in E as ->. discriminate H.
Qed.

(** X11. The integer parse neither wraps nor truncates.  On a text of
    decimal digits, followed or not by text that does not go on with a
    digit, it returns the number the digits write when that number is a
    value of [T] and throws the range error when it is not; for a signed
    [T] the same holds, with the number negated, after a minus sign.  A
    value it returns always lies between the least and the greatest
    value of [T]. *)
Theorem Parser_parse_exact (T : int_type) (ds t : string) :
  all_digits ds = true ->
  ds <> EmptyString ->
  no_leading_digit t = true ->
  Parser_parse T (ds ++ t)
  = (if ((int_min T <=? decimal_value ds)%Z && (decimal_value ds <=? int_max T)%Z)%bool
     then Returns (decimal_value ds)
     else Throws (NotRepresentable (ds ++ t))) /\
  (is_signed T = true ->
   Parser_parse T (String ch_minus (ds ++ t))
   = (if ((int_min T <=? - decimal_value ds)%Z
          && (- decimal_value ds <=? int_max T)%Z)%bool
      then Returns (- decimal_value ds)%Z
      else Throws (NotRepresentable (String ch_minus (ds ++ t))))) /\
  (forall (sv : string) (v : Z),
     Parser_parse T sv = Returns v -> (int_min T <= v <= int_max T)%Z).
Proof.
  intros Hds Hne Ht.
  destruct ds as [| c r]; [congruence |].
  pose proof Hds as Hc. simpl in Hc. apply andb_true_iff in Hc as [Hc _].
  pose proof (digit_not_minus _ Hc) as Hm.
  pose proof (scan_digits_value _ _ Hds Ht 0%Z 0) as Hscan.
  simpl Nat.add in Hscan. rewrite Z.mul_0_l, Z.add_0_l in Hscan.
  cbn [String.length] in Hscan.
  split; [| split].
  - unfold Parser_parse. cbv zeta. rewrite from_chars_unfold. cbv zeta.
    change (String c r ++ t) with (String c (r ++ t)) in *.
    unfold unsigned_part. rewrite Hm, andb_false_r, Hscan.
    destruct ((int_min T <=? decimal_value (String c r))%Z
              && (decimal_value (String c r) <=? int_max T)%Z)%bool; reflexivity.
  - intros Hs. unfold Parser_parse. cbv zeta. rewrite from_chars_unfold. cbv zeta.
    unfold unsigned_part. rewrite Hs. cbn [andb]. rewrite Ascii.eqb_refl, Hscan.
    destruct ((int_min T <=? - decimal_value (String c r))%Z
              && (- decimal_value (String c r) <=? int_max T)%Z)%bool; reflexivity.
  - apply Parser_parse_in_range.
Qed.

Lemma Parser_parse_exact_witness :
  Parser_parse uint16_t ("70000" ++ " ms") = Throws (NotRepresentable "70000 ms") /\
  Parser_parse int32_t ("2147483647" ++ "") = Returns 2147483647%Z /\
  Parser_parse int32_t (String ch_minus ("2147483649" ++ ";"))
    = Throws (NotRepresentable (String ch_minus "2147483649;")).
Proof.
  split; [| split].
  - apply (Parser_parse_exact uint16_t "70000" " ms"); [reflexivity | discriminate | reflexivity].
  - apply (Parser_parse_exact int32_t "2147483647" ""); [reflexivity | discriminate | reflexivity].
  - apply (Parser_parse_exact int32_t "2147483649" ";");
      [reflexivity | discriminate | reflexivity | reflexivity].
Defined.

(** X12. The integer parse ends in one of three ways, and the text
    decides between the first and the other two: with no digit at the
    start (after the minus sign of a signed type) it throws the
    not-valid error, and with a digit there it returns a value or throws
    the not-representable error.  The catch-all error is never thrown and
    nothing is read outside the text. *)
Theorem Parser_parse_outcomes (T : int_type) (sv : string) :
  (Parser_parse T sv = Throws (NotValid sv) <->
   no_leading_digit (unsigned_part T sv) = true) /\
  (no_leading_digit (unsigned_part T sv) = false ->
   (exists v, Parser_parse T sv = Returns v) \/
   Parser_parse T sv = Throws (NotRepresentable sv)).
Proof.
  unfold Parser_parse. cbv zeta. rewrite from_chars_unfold. cbv zeta.
  destruct (scan_digits (unsigned_part T sv) 0%Z 0) as [m k] eqn:Hk.
  apply scan_digits_zero in Hk.
  destruct k as [| k].
  - assert (Hn : no_leading_digit (unsigned_part T sv) = true) by (by apply Hk).
    simpl. split; [tauto | congruence].
  - assert (Hn : no_leading_digit (unsigned_part T sv) = false).
    { destruct (no_leading_digit (unsigned_part T sv)); [| reflexivity].
      destruct Hk as [_ Hk]. discriminate (Hk eq_refl). }
    rewrite Hn.
    match goal with
    | |- context [if ?b then _ else _] => destruct b
    end; simpl.
    + split; [split; discriminate | intros _; left; by eexists].
    + split; [split; discriminate | intros _; by right].
Qed.

Lemma Parser_parse_outcomes_witness :
  Parser_parse int32_t " 12" = Throws (NotValid " 12") /\
  Parser_parse uint16_t "-1" = Throws (NotValid "-1") /\
  ((exists v, Parser_parse uint16_t "70000" = Returns v) \/
   Parser_parse uint16_t "70000" = Throws (NotRepresentable "70000")).
Proof.
  split; [| split].
  - apply (Parser_parse_outcomes int32_t " 12"). reflexivity.
  - apply (Parser_parse_outcomes uint16_t "-1"). reflexivity.
  - apply (Parser_parse_outcomes uint16_t "70000"). reflexivity.
Defined.

Lemma Parser_parse_numeric_prefix_witness :
  numeric_text int32_t (SV.take 3 "-12abc") = true /\
  no_leading_digit (SV.drop 3 "-12abc") = true /\
  Parser_parse int32_t (SV.take 3 "-12abc") = Returns (-12)%Z.
Proof. apply (Parser_parse_numeric_prefix int32_t "-12abc" (-12)%Z). reflexivity. Defined.

Lemma scan_digits_nonneg (sv : string) :
  forall (acc : Z) (n : nat) (m : Z) (k : nat),
    (0 <= acc)%Z -> scan_digits sv acc n = (m, k) -> (0 <= m)%Z.
Proof.
  induction sv as [| c r IH]; intros acc n m k Hacc H; simpl in H.
  - injection H as <- _. exact Hacc.
  - destruct (is_digit c) eqn:Hc.
    + eapply IH; [| exact H].
      unfold is_digit in Hc. apply andb_true_iff in Hc as [Hc _].
      apply Nat.leb_le in Hc. unfold digit_value. lia.
    + injection H as <- _. exact Hacc.
Qed.

(** X13. For a signed type, a text of digits that parses to [v] parses to
    [- v] with a minus sign in front. *)
Theorem Parser_parse_minus (T : int_type) (sv : string) (v : Z) :
  is_signed T = true ->
  no_leading_digit sv = false ->
  Parser_parse T sv = Returns v ->
  Parser_parse T (String ch_minus sv) = Returns (- v)%Z.
Proof.
  intros Hs Hd. unfold Parser_parse. cbv zeta. rewrite !from_chars_unfold. cbv zeta.
  assert (Hu : unsigned_part T sv = sv).
  { destruct sv as [| c r]; [reflexivity |]. unfold unsigned_part.
    destruct (Ascii.eqb c ch_minus) eqn:E; [| by rewrite andb_false_r].
    apply Ascii.eqb_eq in E as ->. discriminate Hd. }
  assert (Hneg : match sv with
                 | String c _ => (is_signed T && Ascii.eqb c ch_minus)%bool
                 | EmptyString => false
                 end = false).
  { destruct sv as [| c r]; [reflexivity |].
    destruct (Ascii.eqb c ch_minus) eqn:E; [| by rewrite andb_false_r].
    apply Ascii.eqb_eq in E as ->. discriminate Hd. }
  rewrite Hneg, Hu.
  assert (Hu' : unsigned_part T (String ch_minus sv) = sv)
    by (unfold unsigned_part; rewrite Hs; reflexivity).
  rewrite Hu'. simpl (is_signed T && _)%bool. rewrite Hs. simpl andb.
  destruct (scan_digits sv 0%Z 0) as [m k] eqn:Hk.
  destruct k as [| k]; [discriminate |].
  pose proof (scan_digits_nonneg _ _ _ _ _ (Z.le_refl 0) Hk) as Hm.
  destruct ((int_min T <=? m)%Z && (m <=? int_max T)%Z)%bool eqn:Hb; [| discriminate].
  simpl. intros [= <-].
  apply andb_true_iff in Hb as [H1 H2]. apply Z.leb_le in H1, H2.
  assert (Hr : ((int_min T <=? - m)%Z && (- m <=? int_max T)%Z)%bool = true).
  { apply andb_true_iff. split; apply Z.leb_le.
    - unfold int_min, int_max in *. rewrite Hs in *. lia.
    - lia. }
  by rewrite Hr.
Qed.

Lemma Parser_parse_minus_witness :
  Parser_parse int32_t (String ch_minus "2147483647") = Returns (- 2147483647)%Z.
Proof.
  apply (Parser_parse_minus int32_t "2147483647" 2147483647%Z); reflexivity.
Defined.

(** * Further properties of the table *)

(** X14. Writing a field leaves every other field of the [Section] as it
    was, for reading and for the presence test, and makes the written
    field present. *)
Theorem setField_frame (s : Section) (k k' v : string) :
  Sec.hasField (Sec.setField s k v) k = true /\
  (k <> k' ->
   Sec.getField (Sec.setField s k v) k' = Sec.getField s k' /\
   Sec.hasField (Sec.setField s k v) k' = Sec.hasField s k').
Proof.
  unfold Sec.hasField, Sec.getField, Sec.setField; simpl. split.
  - rewrite lookup_insert_eq. by apply bool_decide_eq_true.
  - intros Hne. by rewrite lookup_insert_ne.
Qed.

Lemma setField_frame_witness :
  Sec.getField (Sec.setField (Sec.setField empty_section "host" "h") "port" "1") "host"
    = Sec.getField (Sec.setField empty_section "host" "h") "host" /\
  Sec.hasField (Sec.setField (Sec.setField empty_section "host" "h") "port" "1") "host"
    = Sec.hasField (Sec.setField empty_section "host" "h") "host".
Proof.
  apply (setField_frame (Sec.setField empty_section "host" "h") "port" "host" "1").
  discriminate.
Defined.

(** X15. The typed read of a field that was just written is the parse of
    the text written: it returns what the parser returns and throws what
    the parser throws. *)
Theorem getFieldAs_setField {A : Type} (parse : string -> outcome A)
    (s : Section) (k v : string) :
  Sec.getFieldAs parse (Sec.setField s k v) k
  = let* x := parse v in Returns (Some x).
Proof.
  unfold Sec.getFieldAs, Sec.getField, Sec.setField; simpl.
  by rewrite lookup_insert_eq.
Qed.

(** X16. [iterate] runs the callback once on every stored pair and on
    nothing else: the pairs it was called with are the pairs a lookup
    finds, and no key comes twice.  On the empty [Section] there is no
    call. *)
Theorem iterate_visits (s : Section) :
  let calls := iterate s record_call [] in
  (forall k v, (k, v) ∈ calls <-> Sec.getField s k = Some v) /\
  NoDup (calls.*1) /\
  iterate empty_section record_call [] = [].
Proof.
  assert (G : forall (l acc : list (string * string)),
             fold_left (fun a kv => record_call (fst kv) (snd kv) a) l acc = (acc ++ l)%list).
  { induction l as [| [k v] l IH]; intros acc; simpl.
    - by rewrite app_nil_r.
    - rewrite IH. unfold record_call. simpl. by rewrite <- app_assoc. }
  unfold iterate. rewrite G. simpl.
  split; [| split].
  - intros k v. unfold Sec.getField. apply elem_of_map_to_list.
  - apply NoDup_fst_map_to_list.
  - reflexivity.
Qed.

Lemma iterate_visits_witness :
  ("host", "h") ∈ iterate (Sec.setField empty_section "host" "h") record_call [].
Proof.
  apply (iterate_visits (Sec.setField empty_section "host" "h")).
  reflexivity.
Defined.

(** X17. The mutable [getSubsection] creates the entry it is asked for
    and touches nothing else: afterwards the subsection is present, the
    presence of every other subsection is as before, and the read-only
    index gives for every key what it gave before. *)
Theorem getSubsection_mut_creates (g : SectionGroup) (subkey k' : string) :
  Grp.hasSubsection (Grp.getSubsection_mut g subkey) subkey = true /\
  Grp.index (Grp.getSubsection_mut g subkey) k' = Grp.index g k' /\
  (subkey <> k' ->
   Grp.hasSubsection (Grp.getSubsection_mut g subkey) k' = Grp.hasSubsection g k').
Proof.
  unfold Grp.hasSubsection, Grp.index, Grp.getSubsection_mut.
  destruct (sections g !! subkey) as [s|] eqn:E; simpl.
  - split; [| by split].
    rewrite E. by apply bool_decide_eq_true.
  - split; [| split].
    + rewrite lookup_insert_eq. by apply bool_decide_eq_true.
    + destruct (decide (subkey = k')) as [<- | Hne].
      * by rewrite lookup_insert_eq, E.
      * by rewrite lookup_insert_ne.
    + intros Hne. by rewrite lookup_insert_ne.
Qed.

Lemma getSubsection_mut_creates_witness :
  Grp.hasSubsection (Grp.getSubsection_mut empty_section_group "a") "b"
  = Grp.hasSubsection empty_section_group "b".
Proof.
  apply (getSubsection_mut_creates empty_section_group "a" "b"). discriminate.
Defined.

(** X18. The mutable [getSection] likewise: the section is present
    afterwards, other sections are present as before, and the read-only
    index of the table is unchanged at every key. *)
Theorem getSection_mut_creates (t : ConfigTable) (key k' : string) :
  Tbl.hasSection (Tbl.getSection_mut t key) key = true /\
  Tbl.index (Tbl.getSection_mut t key) k' = Tbl.index t k' /\
  (key <> k' ->
   Tbl.hasSection (Tbl.getSection_mut t key) k' = Tbl.hasSection t k').
Proof.
  unfold Tbl.hasSection, Tbl.index, Tbl.getSection_mut.
  destruct (groups t !! key) as [g|] eqn:E; simpl.
  - split; [| by split].
    rewrite E. by apply bool_decide_eq_true.
  - split; [| split].
    + rewrite lookup_insert_eq. by apply bool_decide_eq_true.
    + destruct (decide (key = k')) as [<- | Hne].
      * by rewrite lookup_insert_eq, E.
      * by rewrite lookup_insert_ne.
    + intros Hne. by rewrite lookup_insert_ne.
Qed.

Lemma getSection_mut_creates_witness :
  Tbl.hasSection (Tbl.getSection_mut empty_table "a") "b"
  = Tbl.hasSection empty_table "b".
Proof.
  apply (getSection_mut_creates empty_table "a" "b"). discriminate.
Defined.

(** * Properties of the builder *)

Lemma Tbl_index_getSection_mut (t : ConfigTable) (key k' : string) :
  Tbl.index (Tbl.getSection_mut t key) k' = Tbl.index t k'.
Proof.
  unfold Tbl.index, Tbl.getSection_mut.
  destruct (groups t !! key) as [g|] eqn:E; simpl; [reflexivity |].
  destruct (decide (key = k')) as [<- | Hne].
  - by rewrite lookup_insert_eq, E.
  - by rewrite lookup_insert_ne.
Qed.

Lemma Grp_index_getSubsection_mut (g : SectionGroup) (subkey k' : string) :
  Grp.index (Grp.getSubsection_mut g subkey) k' = Grp.index g k'.
Proof.
  unfold Grp.index, Grp.getSubsection_mut.
  destruct (sections g !! subkey) as [s|] eqn:E; simpl; [reflexivity |].
  destruct (decide (subkey = k')) as [<- | Hne].
  - by rewrite lookup_insert_eq, E.
  - by rewrite lookup_insert_ne.
Qed.

Lemma Grp_has_getSubsection_mut (g : SectionGroup) (subkey k' : string) :
  Grp.hasSubsection (Grp.getSubsection_mut g subkey) k'
  = (bool_decide (subkey = k') || Grp.hasSubsection g k')%bool.
Proof.
  unfold Grp.hasSubsection, Grp.getSubsection_mut.
  destruct (decide (subkey = k')) as [<- | Hk].
  - rewrite (bool_decide_eq_true_2 (subkey = subkey)) by reflexivity. simpl.
    apply bool_decide_eq_true.
    destruct (sections g !! subkey) as [s|] eqn:E; simpl.
    + rewrite E. by eexists.
    + rewrite lookup_insert_eq. by eexists.
  - rewrite (bool_decide_eq_false_2 (subkey = k')) by exact Hk. simpl.
    destruct (sections g !! subkey) as [s|] eqn:E; simpl; [reflexivity |].
    by rewrite lookup_insert_ne.
Qed.

Lemma select_index (t : ConfigTable) (name sub x : string) :
  Tbl.index (ct (select t name sub)) x
  = if decide (name = x) then Grp.getSubsection_mut (Tbl.index t name) sub
    else Tbl.index t x.
Proof.
  unfold select. cbn [ct]. rewrite Tbl_index_getSection_mut.
  unfold Tbl.index at 1. cbn [groups].
  destruct (decide (name = x)) as [<- | Hne].
  - by rewrite lookup_insert_eq.
  - rewrite lookup_insert_ne by exact Hne.
    fold (Tbl.index (Tbl.getSection_mut t name) x).
    apply Tbl_index_getSection_mut.
Qed.

Lemma select_has (t : ConfigTable) (name sub x : string) :
  Tbl.hasSection (ct (select t name sub)) x
  = (bool_decide (name = x) || Tbl.hasSection t x)%bool.
Proof.
  unfold select, Tbl.hasSection. cbn [ct groups].
  destruct (decide (name = x)) as [<- | Hk].
  - rewrite (bool_decide_eq_true_2 (name = name)) by reflexivity. simpl.
    rewrite lookup_insert_eq. by apply bool_decide_eq_true.
  - rewrite (bool_decide_eq_false_2 (name = x)) by exact Hk. simpl.
    rewrite lookup_insert_ne by exact Hk.
    unfold Tbl.getSection_mut.
    destruct (groups t !! name) as [g|] eqn:E; simpl; [reflexivity |].
    by rewrite lookup_insert_ne.
Qed.

Lemma select_lookup3 (t : ConfigTable) (name sub x y k : string) :
  lookup3 (ct (select t name sub)) x y k = lookup3 t x y k.
Proof.
  unfold lookup3. rewrite select_index.
  destruct (decide (name = x)) as [<- | Hne]; [| reflexivity].
  by rewrite Grp_index_getSubsection_mut.
Qed.

Lemma select_valid (t : ConfigTable) (name sub : string) :
  cursor_valid (select t name sub) = true.
Proof.
  unfold cursor_valid. cbn [cur_section fst snd select].
  fold (select t name sub).
  rewrite select_has, select_index, decide_True by reflexivity.
  rewrite Grp_has_getSubsection_mut.
  by rewrite !bool_decide_eq_true_2.
Qed.

Lemma select_le (t : ConfigTable) (name sub : string) :
  table_le t (ct (select t name sub)).
Proof.
  split; [| split].
  - intros x H. rewrite select_has, H. apply orb_true_r.
  - intros x y H. rewrite select_index.
    destruct (decide (name = x)) as [<- | Hne]; [| exact H].
    rewrite Grp_has_getSubsection_mut, H. apply orb_true_r.
  - intros x y k H. rewrite select_index.
    destruct (decide (name = x)) as [<- | Hne]; [| exact H].
    by rewrite Grp_index_getSubsection_mut.
Qed.

(** X19. Moving the cursor, [&ct.getSection(name).getSubsection(sub)],
    makes the section and the subsection exist and lets the cursor point
    at them; no field appears, disappears or changes, and no section is
    lost. *)
Theorem select_creates (t : ConfigTable) (name sub : string) :
  cur_section (select t name sub) = (name, sub) /\
  cursor_valid (select t name sub) = true /\
  (forall x y k, lookup3 (ct (select t name sub)) x y k = lookup3 t x y k) /\
  table_le t (ct (select t name sub)).
Proof.
  split; [reflexivity |]. split; [apply select_valid |].
  split; [intros x y k; apply select_lookup3 | apply select_le].
Qed.

Lemma cur_setField_index (b : builder) (key value x : string) :
  Tbl.index (ct (cur_setField b key value)) x
  = if decide (fst (cur_section b) = x)
    then {| sections :=
              <[snd (cur_section b) :=
                  Sec.setField (Grp.index (Tbl.index (ct b) (fst (cur_section b)))
                                  (snd (cur_section b))) key value]>
                (sections (Tbl.index (ct b) (fst (cur_section b)))) |}
    else Tbl.index (ct b) x.
Proof.
  unfold cur_setField. destruct (cur_section b) as [name sub]. cbn [ct fst snd].
  unfold Tbl.index at 1. cbn [groups].
  destruct (decide (name = x)) as [<- | Hne].
  - by rewrite lookup_insert_eq.
  - by rewrite lookup_insert_ne.
Qed.

Lemma cur_setField_lookup3 (b : builder) (key value x y k : string) :
  lookup3 (ct (cur_setField b key value)) x y k
  = if decide ((x, y, k) = (fst (cur_section b), snd (cur_section b), key))
    then Some value
    else lookup3 (ct b) x y k.
Proof.
  unfold lookup3. rewrite cur_setField_index.
  destruct (decide (fst (cur_section b) = x)) as [<- | Hx].
  - unfold Grp.index at 1. cbn [sections].
    destruct (decide (snd (cur_section b) = y)) as [<- | Hy].
    + rewrite lookup_insert_eq.
      destruct (decide (key = k)) as [<- | Hk].
      * rewrite decide_True by reflexivity.
        unfold Sec.index, Sec.getField, Sec.setField. cbn [fields].
        by rewrite lookup_insert_eq.
      * rewrite decide_False by congruence.
        unfold Sec.index, Sec.getField, Sec.setField. cbn [fields].
        by rewrite lookup_insert_ne.
    + rewrite lookup_insert_ne by exact Hy.
      by rewrite decide_False by congruence.
  - by rewrite decide_False by congruence.
Qed.

(** X20. Writing through the cursor is seen by the three-level lookup at
    the cursor's section, subsection and the key written, and nowhere
    else; the cursor stays where it was. *)
Theorem cur_setField_lookup (b : builder) (key value : string) :
  cursor_valid b = true ->
  cur_section (cur_setField b key value) = cur_section b /\
  lookup3 (ct (cur_setField b key value))
    (fst (cur_section b)) (snd (cur_section b)) key = Some value /\
  (forall x y k,
     (x, y, k) <> (fst (cur_section b), snd (cur_section b), key) ->
     lookup3 (ct (cur_setField b key value)) x y k = lookup3 (ct b) x y k).
Proof.
  intros _. split; [| split].
  - unfold cur_setField. by destruct (cur_section b).
  - by rewrite cur_setField_lookup3, decide_True.
  - intros x y k Hne. by rewrite cur_setField_lookup3, decide_False.
Qed.

Lemma cur_setField_lookup_witness :
  let b := cur_setField (select empty_table "server" "main") "host" "h" in
  lookup3 (ct (cur_setField b "port" "80")) "server" "main" "port" = Some "80" /\
  lookup3 (ct (cur_setField b "port" "80")) "server" "main" "host"
    = lookup3 (ct b) "server" "main" "host".
Proof.
  intros b.
  destruct (cur_setField_lookup b "port" "80") as (_ & H1 & H2).
  - vm_compute. reflexivity.
  - split; [exact H1 |]. apply H2. discriminate.
Defined.

Lemma table_le_refl (t : ConfigTable) : table_le t t.
Proof. by repeat split. Qed.

Lemma table_le_trans (t1 t2 t3 : ConfigTable) :
  table_le t1 t2 -> table_le t2 t3 -> table_le t1 t3.
Proof.
  intros (A1 & A2 & A3) (B1 & B2 & B3). repeat split; auto.
Qed.

Lemma hasField_lookup3 (t : ConfigTable) (x y k : string) :
  Sec.hasField (Grp.index (Tbl.index t x) y) k
  = bool_decide (is_Some (lookup3 t x y k)).
Proof. reflexivity. Qed.

Lemma cur_setField_has (b : builder) (key value x : string) :
  Tbl.hasSection (ct (cur_setField b key value)) x
  = (bool_decide (fst (cur_section b) = x) || Tbl.hasSection (ct b) x)%bool.
Proof.
  unfold cur_setField, Tbl.hasSection. destruct (cur_section b) as [name sub].
  cbn [ct groups fst].
  destruct (decide (name = x)) as [<- | Hk].
  - rewrite (bool_decide_eq_true_2 (name = name)) by reflexivity. simpl.
    rewrite lookup_insert_eq. by apply bool_decide_eq_true.
  - rewrite (bool_decide_eq_false_2 (name = x)) by exact Hk. simpl.
    by rewrite lookup_insert_ne.
Qed.

Lemma cur_setField_valid (b : builder) (key value : string) :
  cursor_valid (cur_setField b key value) = true.
Proof.
  unfold cursor_valid.
  assert (Hc : cur_section (cur_setField b key value) = cur_section b)
    by (unfold cur_setField; by destruct (cur_section b)).
  rewrite Hc, cur_setField_has, cur_setField_index.
  rewrite decide_True, bool_decide_eq_true_2 by reflexivity. simpl.
  unfold Grp.hasSubsection. cbn [sections].
  rewrite lookup_insert_eq. by apply bool_decide_eq_true.
Qed.

Lemma cur_setField_le (b : builder) (key value : string) :
  table_le (ct b) (ct (cur_setField b key value)).
Proof.
  split; [| split].
  - intros x H. rewrite cur_setField_has, H. apply orb_true_r.
  - intros x y H. rewrite cur_setField_index.
    destruct (decide (fst (cur_section b) = x)) as [<- | Hne]; [| exact H].
    unfold Grp.hasSubsection in *. cbn [sections].
    destruct (decide (snd (cur_section b) = y)) as [<- | Hy].
    + rewrite lookup_insert_eq. by apply bool_decide_eq_true.
    + by rewrite lookup_insert_ne.
  - intros x y k. rewrite !hasField_lookup3, cur_setField_lookup3.
    intros H. case_decide; [| exact H].
    by apply bool_decide_eq_true.
Qed.

(** What a line that returns has done: nothing, moved the cursor, or
    written one field through it. *)
Lemma parseLine_returns (b : builder) (n : Z) (line_string : string) (b' : builder) :
  parseLine b n line_string = Returns b' ->
  b' = b \/
  (exists name sub, b' = select (ct b) name sub) \/
  (exists key value, b' = cur_setField b key value).
Proof.
  unfold parseLine. intros H.
  step_bind_ret H.
  destruct (SV.size a =? 0)%nat; [injection H as <-; by left |].
  destruct (SV.front a) as [c|]; [| discriminate H].
  destruct (Ascii.eqb c ch_lbracket).
  - step_bind_ret H.
    destruct (findFirstNotQuoted a0 ch_space) as [sep|].
    + step_bind_ret H. step_bind_ret H.
      injection H as <-. right; left. by eexists _, _.
    + injection H as <-. right; left. by eexists _, _.
  - destruct (findEqPos a) as [eq_pos|]; [| discriminate H].
    step_bind_ret H. step_bind_ret H.
    injection H as <-. right; right. by eexists _, _.
Qed.

Lemma parseLine_keeps (b : builder) (n : Z) (line_string : string) (b' : builder) :
  parseLine b n line_string = Returns b' ->
  (cursor_valid b = true -> cursor_valid b' = true) /\ table_le (ct b) (ct b').
Proof.
  intros H.
  apply parseLine_returns in H
    as [-> | [(name & sub & ->) | (key & value & ->)]].
  - split; [auto | apply table_le_refl].
  - split; [intros _; apply select_valid | apply select_le].
  - split; [intros _; apply cur_setField_valid | apply cur_setField_le].
Qed.

Lemma parseLoop_keeps (lines : list string) :
  forall (b : builder) (n : Z) (b' : builder),
    parseLoop b n lines = Returns b' ->
    (cursor_valid b = true -> cursor_valid b' = true) /\ table_le (ct b) (ct b').
Proof.
  induction lines as [| l rest IH]; intros b n b' H; simpl in H.
  - injection H as <-. split; [auto | apply table_le_refl].
  - step_bind_ret H.
    apply parseLine_keeps in E as [Hv Hle].
    apply IH in H as [Hv' Hle'].
    split; [auto | by eapply table_le_trans].
Qed.

(** X21. The cursor never dangles: if it points at a [Section] of the
    table before a run of lines, it does so after every line of the run
    that returns. *)
Theorem cursor_stays_valid (lines : list string) (b : builder) (n : Z) (b' : builder) :
  cursor_valid b = true ->
  parseLoop b n lines = Returns b' ->
  cursor_valid b' = true.
Proof. intros Hv H. by apply (parseLoop_keeps _ _ _ _ H). Qed.

Lemma cursor_stays_valid_witness :
  cursor_valid (cur_setField (select (ct (select empty_table "" "")) "s" "") "k" "v")
  = true.
Proof.
  apply (cursor_stays_valid ["[s]"; "k=v"] (select empty_table "" "") 1%Z);
    reflexivity.
Defined.

(** X22. Parsing only adds: a section, a subsection or a field that is
    present before a run of lines is present after it (a field possibly
    with another value). *)
Theorem parseLoop_never_removes (lines : list string) (b : builder) (n : Z)
    (b' : builder) :
  parseLoop b n lines = Returns b' -> table_le (ct b) (ct b').
Proof. intros H. by apply (parseLoop_keeps _ _ _ _ H). Qed.

Lemma parseLoop_never_removes_witness :
  table_le (ct (select empty_table "" ""))
    (ct (cur_setField (select (ct (select empty_table "" "")) "s" "") "k" "v")).
Proof.
  apply (parseLoop_never_removes ["[s]"; "k=v"] (select empty_table "" "") 1%Z).
  reflexivity.
Defined.

(** X23. Every table a parse returns has the section with the empty name
    and in it the subsection with the empty name, the place of the
    fields written before any header. *)
Theorem parseConfigFile_root_section (istream : string) (t : ConfigTable) :
  parseConfigFile istream = Returns t ->
  Tbl.hasSection t EmptyString = true /\
  Grp.hasSubsection (Tbl.index t EmptyString) EmptyString = true.
Proof.
  unfold parseConfigFile. intros H. step_bind_ret H. injection H as <-.
  apply parseLoop_keeps in E as [_ (H1 & H2 & _)].
  pose proof (select_valid empty_table EmptyString EmptyString) as Hv.
  unfold cursor_valid in Hv. cbn [cur_section select fst snd] in Hv.
  fold (select empty_table EmptyString EmptyString) in Hv.
  apply andb_true_iff in Hv as [Hs Hg]. auto.
Qed.

Lemma parseConfigFile_root_section_witness :
  Tbl.hasSection (table_of (parseConfigFile ("[s]" ++ lf ++ "k=v"))) EmptyString = true /\
  Grp.hasSubsection
    (Tbl.index (table_of (parseConfigFile ("[s]" ++ lf ++ "k=v"))) EmptyString)
    EmptyString = true.
Proof.
  apply (parseConfigFile_root_section ("[s]" ++ lf ++ "k=v")). reflexivity.
Defined.

(** * Properties of the line loop *)

Lemma parseLoop_app (l1 l2 : list string) :
  forall (b : builder) (m : Z),
    parseLoop b (uint32 m) (l1 ++ l2)%list
    = let* b' := parseLoop b (uint32 m) l1 in
      parseLoop b' (uint32 (m + Z.of_nat (length l1))) l2.
Proof.
  induction l1 as [| l l1 IH]; intros b m.
  - simpl. by rewrite Z.add_0_r.
  - cbn [app parseLoop length].
    destruct (parseLine b (uint32 m) l) as [b1 | e |]; simpl; try reflexivity.
    rewrite uint32_succ, IH.
    replace (m + 1 + Z.of_nat (length l1))%Z with (m + Z.of_nat (S (length l1)))%Z
      by lia.
    reflexivity.
Qed.

(** X24. The loop over two runs of lines is the loop over the first run
    followed, from the builder it leaves and with the line counter moved
    on by its length, by the loop over the second run.  So a line that
    raises ends the parse with what it raised: the lines after it are
    not read and no table is returned. *)
Theorem parseLoop_composes (l1 l2 : list string) (b : builder) (m : Z) :
  parseLoop b (uint32 m) (l1 ++ l2)%list
  = (let* b' := parseLoop b (uint32 m) l1 in
     parseLoop b' (uint32 (m + Z.of_nat (length l1))) l2) /\
  (forall (b1 : builder) (line_string : string),
     parseLoop b (uint32 m) l1 = Returns b1 ->
     raises (parseLine b1 (uint32 (m + Z.of_nat (length l1))) line_string) ->
     parseLoop b (uint32 m) (l1 ++ line_string :: l2)%list
     = parseLine b1 (uint32 (m + Z.of_nat (length l1))) line_string).
Proof.
  split; [apply parseLoop_app |].
  intros b1 line_string H1 Hr. rewrite parseLoop_app, H1. simpl.
  destruct (parseLine b1 _ line_string); simpl in *; [tauto | reflexivity | reflexivity].
Qed.

Lemma parseLoop_composes_witness :
  parseLoop (select empty_table "" "") (uint32 1) (["a=1"] ++ ["oops"; "b=2"])%list
  = parseLine (cur_setField (select empty_table "" "") "a" "1") (uint32 (1 + 1)) "oops".
Proof.
  apply (parseLoop_composes ["a=1"] ["b=2"] (select empty_table "" "") 1%Z).
  - reflexivity.
  - vm_compute. exact I.
Defined.

Lemma parse_error_line_witness :
  exists (i : nat) (line_string : string) (b : builder),
    nth_error (getlines ("a=1" ++ lf ++ "oops")) i = Some line_string /\
    parseLine b (uint32 (1 + Z.of_nat i)) line_string
      = Throws (MalformedLine 2 "oops") /\
    ((exists s, MalformedLine 2 "oops" = MalformedLine (uint32 (1 + Z.of_nat i)) s) \/
     (exists s, MalformedLine 2 "oops" = UnfinishedQuote (uint16 (1 + Z.of_nat i)) s)) /\
    ((Z.of_nat (length (getlines ("a=1" ++ lf ++ "oops"))) < 2 ^ 16)%Z ->
       error_line (MalformedLine 2 "oops") = Some (1 + Z.of_nat i)%Z).
Proof.
  apply (parse_error_line ("a=1" ++ lf ++ "oops") (MalformedLine 2 "oops")).
  reflexivity.
Defined.

Lemma comment_line_skipped_witness :
  parseLine (select empty_table "" "") 1 EmptyString
    = Returns (select empty_table "" "") /\
  parseLine (select empty_table "" "") 1
      (String ch_tab " " ++ String ch_hash " note")
    = Returns (select empty_table "" "") /\
  parseLine (select empty_table "" "") 1
      (String ch_tab " " ++ String ch_slash (String ch_slash " note"))
    = Returns (select empty_table "" "").
Proof.
  apply (comment_line_skipped (select empty_table "" "") 1 (String ch_tab " ") " note").
  reflexivity.
Defined.

(** * Lines of bare words *)

Lemma mem_made_of (set set' : string) (c : ascii) :
  made_of set set' = true -> SV.mem c set' = true -> SV.mem c set = true.
Proof.
  induction set' as [| d r IH]; simpl; [discriminate |].
  intros H Hc. apply andb_true_iff in H as [Hd Hr].
  destruct (Ascii.eqb c d) eqn:E; [| by apply IH].
  by apply Ascii.eqb_eq in E as ->.
Qed.

Lemma free_of_subset (set set' s : string) :
  made_of set set' = true -> free_of set s = true -> free_of set' s = true.
Proof.
  intros Hsub. induction s as [| c r IH]; [reflexivity |]. simpl.
  intros H. apply andb_true_iff in H as [Hc Hr]. rewrite (IH Hr), andb_true_r.
  apply negb_true_iff in Hc. apply negb_true_iff.
  destruct (SV.mem c set') eqn:E; [| reflexivity].
  by rewrite (mem_made_of _ _ _ Hsub E) in Hc.
Qed.

Lemma free_of_app (set a b : string) :
  free_of set (a ++ b) = (free_of set a && free_of set b)%bool.
Proof.
  induction a as [| c a IH]; [reflexivity |].
  change (free_of set (String c a ++ b))
    with (negb (SV.mem c set) && free_of set (a ++ b))%bool.
  rewrite IH. simpl. by rewrite andb_assoc.
Qed.

Lemma free_of_back (set s : string) (d : ascii) :
  free_of set s = true -> SV.back s = Some d -> SV.mem d set = false.
Proof.
  intros H Hb. apply back_snoc in Hb as [a ->].
  rewrite free_of_app in H. apply andb_true_iff in H as [_ H].
  simpl in H. rewrite andb_true_r in H. by apply negb_true_iff.
Qed.

Lemma front_app (c : ascii) (r b : string) :
  SV.front (String c r ++ b) = Some c.
Proof. reflexivity. Qed.

(** What being bare gives: the word is not empty, its first and last
    characters are not special, and it is free of every set of special
    characters. *)
Lemma bare_inv (s : string) :
  bare s = true ->
  exists (c : ascii) (r : string) (d : ascii),
    s = String c r /\ SV.back s = Some d /\
    SV.mem c special_chars = false /\ SV.mem d special_chars = false /\
    free_of special_chars s = true.
Proof.
  unfold bare. intros H. apply andb_true_iff in H as [Hn Hf].
  destruct s as [| c r]; [discriminate Hn |].
  destruct (back_nonempty c r) as [d Hd].
  exists c, r, d. repeat split; try assumption.
  - simpl in Hf. apply andb_true_iff in Hf as [Hc _]. by apply negb_true_iff.
  - by apply (free_of_back _ _ _ Hf).
Qed.

Lemma special_not (c : ascii) (set : string) :
  made_of special_chars set = true ->
  SV.mem c special_chars = false -> SV.mem c set = false.
Proof.
  intros Hsub Hc. destruct (SV.mem c set) eqn:E; [| reflexivity].
  by rewrite (mem_made_of _ _ _ Hsub E) in Hc.
Qed.

Lemma findFirstNotQuoted_from_first (pre rest : string) (ch : ascii) :
  free_of (String ch (bs ++ dq)) pre = true ->
  Ascii.eqb ch ch_backslash = false ->
  Ascii.eqb ch ch_dquote = false ->
  forall p, findFirstNotQuoted_from p false false (pre ++ String ch rest) ch
            = Some (p + String.length pre).
Proof.
  intros Hpre Hb Hq. induction pre as [| c r IH]; intros p.
  - simpl. rewrite Hb, Hq, Ascii.eqb_refl. f_equal. lia.
  - change (free_of (String ch (bs ++ dq)) (String c r))
      with (negb (SV.mem c (String ch (String ch_backslash (String ch_dquote EmptyString))))
            && free_of (String ch (bs ++ dq)) r)%bool in Hpre.
    apply andb_true_iff in Hpre as [Hc Hr]. apply negb_true_iff in Hc.
    apply mem_false_cons in Hc as [H1 Hc].
    apply mem_false_cons in Hc as [H2 Hc].
    apply mem_false_cons in Hc as [H3 _].
    change (String c r ++ String ch rest) with (String c (r ++ String ch rest)).
    simpl. rewrite H1, H2, H3, (IH Hr). f_equal. lia.
Qed.

Lemma take_app_exact (a b : string) (n : nat) :
  n = String.length a -> SV.take n (a ++ b) = a.
Proof. intros ->. apply take_app. Qed.

Lemma drop_app_exact (a b : string) (n : nat) :
  n = String.length a -> SV.drop n (a ++ b) = b.
Proof. intros ->. apply drop_app. Qed.

Lemma trim_left (set ws core : string) (c d : ascii) :
  made_of set ws = true ->
  SV.front core = Some c -> SV.mem c set = false ->
  SV.back core = Some d -> SV.mem d set = false ->
  trimStringViewEnds (ws ++ core) set = core.
Proof.
  intros. rewrite <- (app_empty_r core) at 1.
  by apply (trim_core set ws core EmptyString c d).
Qed.

Lemma trim_right (set core ws : string) (c d : ascii) :
  made_of set ws = true ->
  SV.front core = Some c -> SV.mem c set = false ->
  SV.back core = Some d -> SV.mem d set = false ->
  trimStringViewEnds (core ++ ws) set = core.
Proof.
  intros. by apply (trim_core set EmptyString core ws c d).
Qed.

(** A key/value line, piece by piece: white space, a bare key, white
    space, [=], white space, a value text that begins and ends outside
    the white space and holds no comment character, white space. *)
Lemma keyvalue_line (b : builder) (n : Z) (ws1 key ws2 ws3 vt ws4 v : string)
    (c d : ascii) :
  bare key = true ->
  made_of default_trim_chars ws1 = true ->
  made_of default_trim_chars ws2 = true ->
  made_of default_trim_chars ws3 = true ->
  made_of default_trim_chars ws4 = true ->
  free_of comment_chars vt = true ->
  SV.front vt = Some c -> SV.mem c default_trim_chars = false ->
  SV.back vt = Some d -> SV.mem d default_trim_chars = false ->
  trimStringQuotes vt (uint16 n) ch_dquote ch_dquote = Returns v ->
  parseLine b n (ws1 ++ ((key ++ ws2) ++ String ch_eq (ws3 ++ vt)) ++ ws4)
  = Returns (cur_setField b key v).
Proof.
  intros Hkey H1 H2 H3 H4 Hvt Hc Hcm Hd Hdm Hq.
  destruct (bare_inv _ Hkey) as (kc & kr & kd & Hk & Hkb & Hkc & Hkd & Hkf).
  pose proof (special_not kc default_trim_chars eq_refl Hkc) as Hkc_t.
  pose proof (special_not kd default_trim_chars eq_refl Hkd) as Hkd_t.
  pose proof (free_of_subset special_chars comment_chars key eq_refl Hkf) as Hkf_c.
  pose proof (free_of_subset special_chars (String ch_eq (bs ++ dq)) key eq_refl Hkf)
    as Hkf_e.
  pose proof (made_of_trim_chars_free comment_chars ws2 eq_refl eq_refl H2) as H2c.
  pose proof (made_of_trim_chars_free comment_chars ws3 eq_refl eq_refl H3) as H3c.
  pose proof (made_of_trim_chars_free (String ch_eq (bs ++ dq)) ws2 eq_refl eq_refl H2)
    as H2e.
  assert (Hlb : Ascii.eqb kc ch_lbracket = false).
  { pose proof (special_not kc (String ch_lbracket EmptyString) eq_refl Hkc) as X.
    simpl in X. by destruct (Ascii.eqb kc ch_lbracket). }
  assert (Hdq : kc <> ch_dquote).
  { intros ->. vm_compute in Hkc. discriminate Hkc. }
  destruct vt as [| vc vr]; [discriminate Hc |].
  set (core := (key ++ ws2) ++ String ch_eq (ws3 ++ String vc vr)).
  assert (Hfront : SV.front core = Some kc) by (unfold core; by rewrite Hk).
  assert (Hback : SV.back core = Some d).
  { unfold core.
    change (String ch_eq (ws3 ++ String vc vr))
      with (String ch_eq ws3 ++ String vc vr).
    by rewrite <- app_assoc_string, back_app_nonempty. }
  unfold parseLine.
  rewrite (trim_core _ _ _ _ _ _ H1 H4 Hfront Hkc_t Hback Hdm).
  assert (Hcore : free_of comment_chars core = true).
  { unfold core. rewrite !free_of_app, Hkf_c, H2c.
    change (free_of comment_chars (String ch_eq (ws3 ++ String vc vr)))
      with (free_of comment_chars (ws3 ++ String vc vr)).
    by rewrite free_of_app, Hvt, H3c. }
  rewrite (trimStringComment_no_comment_chars _ Hcore). simpl bind.
  assert (Hsize : (SV.size core =? 0)%nat = false).
  { unfold core, SV.size. rewrite Hk. reflexivity. }
  rewrite Hsize, Hfront, Hlb.
  assert (Hpre : free_of (String ch_eq (bs ++ dq)) (key ++ ws2) = true)
    by (by rewrite free_of_app, Hkf_e, H2e).
  unfold findEqPos, findFirstNotQuoted, core.
  rewrite (findFirstNotQuoted_from_first _ _ _ Hpre eq_refl eq_refl). simpl Nat.add.
  unfold SV.substr. simpl SV.drop at 1.
  rewrite take_app.
  rewrite (trim_right _ _ _ kc kd H2 (f_equal SV.front Hk) Hkc_t Hkb Hkd_t).
  rewrite Hk at 1. rewrite (trimStringQuotes_unquoted _ _ _ _ _ Hdq). simpl bind.
  change ((key ++ ws2) ++ String ch_eq (ws3 ++ String vc vr))
    with ((key ++ ws2) ++ String ch_eq EmptyString ++ (ws3 ++ String vc vr)).
  rewrite <- app_assoc_string.
  rewrite drop_app_exact by (rewrite !length_app; simpl; lia).
  rewrite (trim_left _ _ _ c d H3 Hc Hcm Hd Hdm), Hq. simpl bind.
  by rewrite <- Hk.
Qed.

Lemma kv_shape (ws1 key ws2 ws3 vt ws4 : string) :
  ws1 ++ ((key ++ ws2) ++ String ch_eq (ws3 ++ vt)) ++ ws4
  = ws1 ++ key ++ ws2 ++ String ch_eq (ws3 ++ vt ++ ws4).
Proof.
  rewrite !app_assoc_string.
  change (String ch_eq (ws3 ++ vt) ++ ws4) with (String ch_eq ((ws3 ++ vt) ++ ws4)).
  by rewrite app_assoc_string.
Qed.

(** X28. A key/value line sets the field under the cursor.  With a bare
    key, and white space allowed at both ends and around the [=]: a bare
    value is stored as it stands, and a value between double quotes is
    stored without the quotes, whatever it holds apart from [#] and [/]
    (spaces, [=], brackets). *)
Theorem key_value_line_sets_field (b : builder) (n : Z)
    (ws1 key ws2 ws3 value body ws4 : string) :
  bare key = true ->
  made_of default_trim_chars ws1 = true ->
  made_of default_trim_chars ws2 = true ->
  made_of default_trim_chars ws3 = true ->
  made_of default_trim_chars ws4 = true ->
  (bare value = true ->
   parseLine b n (ws1 ++ key ++ ws2 ++ String ch_eq (ws3 ++ value ++ ws4))
   = Returns (cur_setField b key value)) /\
  (free_of comment_chars body = true ->
   parseLine b n
     (ws1 ++ key ++ ws2 ++
      String ch_eq (ws3 ++ String ch_dquote (body ++ String ch_dquote ws4)))
   = Returns (cur_setField b key body)).
Proof.
  intros Hkey H1 H2 H3 H4. split.
  - intros Hv.
    destruct (bare_inv _ Hv) as (vc & vr & vd & Hveq & Hvb & Hvc & Hvd & Hvf).
    rewrite <- kv_shape.
    apply (keyvalue_line b n ws1 key ws2 ws3 value ws4 value vc vd); try assumption.
    + exact (free_of_subset special_chars comment_chars value eq_refl Hvf).
    + by rewrite Hveq.
    + exact (special_not vc default_trim_chars eq_refl Hvc).
    + exact (special_not vd default_trim_chars eq_refl Hvd).
    + rewrite Hveq. apply trimStringQuotes_unquoted.
      intros ->. vm_compute in Hvc. discriminate Hvc.
  - intros Hbody.
    change (String ch_dquote (body ++ String ch_dquote ws4))
      with (String ch_dquote (body ++ String ch_dquote EmptyString ++ ws4)).
    rewrite <- (app_assoc_string body).
    change (String ch_dquote ((body ++ String ch_dquote EmptyString) ++ ws4))
      with (String ch_dquote (body ++ String ch_dquote EmptyString) ++ ws4).
    rewrite <- kv_shape.
    apply (keyvalue_line b n ws1 key ws2 ws3
             (String ch_dquote (body ++ String ch_dquote EmptyString)) ws4 body
             ch_dquote ch_dquote); try assumption; try reflexivity.
    + change (free_of comment_chars (body ++ String ch_dquote EmptyString) = true).
      by rewrite free_of_app, Hbody.
    + change (String ch_dquote (body ++ String ch_dquote EmptyString))
        with (String ch_dquote body ++ String ch_dquote EmptyString).
      apply back_of_snoc.
    + apply trimStringQuotes_quoted.
Qed.

Lemma key_value_line_sets_field_witness :
  parseLine (select empty_table "" "") 1
    (" " ++ "host" ++ " " ++ String ch_eq (String ch_tab "" ++ "localhost" ++ "  "))
  = Returns (cur_setField (select empty_table "" "") "host" "localhost") /\
  parseLine (select empty_table "" "") 1
    (" " ++ "host" ++ " " ++
     String ch_eq (String ch_tab "" ++
                   String ch_dquote ("my server = [x]" ++ String ch_dquote "  ")))
  = Returns (cur_setField (select empty_table "" "") "host" "my server = [x]").
Proof.
  split.
  - apply (key_value_line_sets_field (select empty_table "" "") 1
             " " "host" " " (String ch_tab "") "localhost" "" "  "); reflexivity.
  - apply (key_value_line_sets_field (select empty_table "" "") 1
             " " "host" " " (String ch_tab "") "" "my server = [x]" "  "); reflexivity.
Defined.

Lemma trim_id (set core : string) (c d : ascii) :
  SV.front core = Some c -> SV.mem c set = false ->
  SV.back core = Some d -> SV.mem d set = false ->
  trimStringViewEnds core set = core.
Proof.
  intros. rewrite <- (app_empty_r core) at 1.
  by apply (trim_core set EmptyString core EmptyString c d).
Qed.

(** A header line up to the search for the separator. *)
Lemma header_open (b : builder) (n : Z) (ws1 interior ws4 : string) :
  made_of default_trim_chars ws1 = true ->
  made_of default_trim_chars ws4 = true ->
  free_of comment_chars interior = true ->
  parseLine b n (ws1 ++ String ch_lbracket (interior ++ String ch_rbracket EmptyString) ++ ws4)
  = match findFirstNotQuoted interior ch_space with
    | None => Returns (select (ct b) interior EmptyString)
    | Some sep =>
        let* section_name :=
          trimStringQuotes
            (trimStringViewEnds (SV.substr 0 (Some sep) interior) default_trim_chars)
            (uint16 n) ch_dquote ch_dquote in
        let* section_subname :=
          trimStringQuotes
            (trimStringViewEnds (SV.substr (sep + 1) None interior) default_trim_chars)
            (uint16 n) ch_dquote ch_dquote in
        Returns (select (ct b) section_name section_subname)
    end.
Proof.
  intros H1 H4 Hint. unfold parseLine.
  set (hdr := String ch_lbracket (interior ++ String ch_rbracket EmptyString)).
  assert (Hback : SV.back hdr = Some ch_rbracket).
  { unfold hdr.
    change (String ch_lbracket (interior ++ String ch_rbracket EmptyString))
      with (String ch_lbracket interior ++ String ch_rbracket EmptyString).
    apply back_of_snoc. }
  rewrite (trim_core default_trim_chars ws1 hdr ws4 ch_lbracket ch_rbracket
             H1 H4 eq_refl eq_refl Hback eq_refl).
  assert (Hfree : free_of comment_chars hdr = true).
  { unfold hdr.
    change (free_of comment_chars (interior ++ String ch_rbracket EmptyString) = true).
    by rewrite free_of_app, Hint. }
  rewrite (trimStringComment_no_comment_chars _ Hfree). simpl bind.
  unfold hdr. rewrite trimStringQuotes_quoted. reflexivity.
Qed.

Lemma header_shape (ws1 interior ws4 : string) :
  ws1 ++ String ch_lbracket (interior ++ String ch_rbracket EmptyString) ++ ws4
  = ws1 ++ String ch_lbracket (interior ++ String ch_rbracket ws4).
Proof.
  change (String ch_lbracket (interior ++ String ch_rbracket EmptyString) ++ ws4)
    with (String ch_lbracket ((interior ++ String ch_rbracket EmptyString) ++ ws4)).
  by rewrite app_assoc_string.
Qed.

Lemma header_pair (b : builder) (n : Z) (ws1 name ws sub ws4 : string) :
  bare name = true ->
  bare sub = true ->
  made_of default_trim_chars ws1 = true ->
  made_of default_trim_chars ws = true ->
  made_of default_trim_chars ws4 = true ->
  parseLine b n
    (ws1 ++ String ch_lbracket
              (name ++ String ch_space (ws ++ sub ++ String ch_rbracket ws4)))
  = Returns (select (ct b) name sub).
Proof.
  intros Hname Hsub H1 Hws H4.
  destruct (bare_inv _ Hname) as (nc & nr & nd & Hneq & Hnb & Hnc & Hnd & Hnf).
  pose proof (special_not nc default_trim_chars eq_refl Hnc) as Hnc_t.
  pose proof (special_not nd default_trim_chars eq_refl Hnd) as Hnd_t.
  pose proof (free_of_subset special_chars comment_chars name eq_refl Hnf) as Hnf_c.
  assert (Hndq : nc <> ch_dquote) by (intros ->; vm_compute in Hnc; discriminate Hnc).
  destruct (bare_inv _ Hsub) as (sc & sr & sd & Hseq & Hsb & Hsc & Hsd & Hsf).
  pose proof (special_not sc default_trim_chars eq_refl Hsc) as Hsc_t.
  pose proof (special_not sd default_trim_chars eq_refl Hsd) as Hsd_t.
  assert (Hsdq : sc <> ch_dquote) by (intros ->; vm_compute in Hsc; discriminate Hsc).
  set (interior := name ++ String ch_space (ws ++ sub)).
  assert (Hshape : name ++ String ch_space (ws ++ sub ++ String ch_rbracket ws4)
                   = interior ++ String ch_rbracket ws4).
  { unfold interior. rewrite app_assoc_string.
    change (String ch_space (ws ++ sub) ++ String ch_rbracket ws4)
      with (String ch_space ((ws ++ sub) ++ String ch_rbracket ws4)).
    by rewrite app_assoc_string. }
  assert (Hint : free_of comment_chars interior = true).
  { unfold interior. rewrite free_of_app, Hnf_c.
    change (free_of comment_chars (ws ++ sub) = true).
    rewrite free_of_app.
    rewrite (made_of_trim_chars_free comment_chars ws eq_refl eq_refl Hws).
    by rewrite (free_of_subset special_chars comment_chars sub eq_refl Hsf). }
  rewrite Hshape, <- header_shape, (header_open b n ws1 interior ws4 H1 H4 Hint).
  unfold findFirstNotQuoted, interior.
  rewrite (findFirstNotQuoted_from_first name (ws ++ sub) ch_space
             (free_of_subset special_chars (String ch_space (bs ++ dq)) name
                eq_refl Hnf) eq_refl eq_refl).
  simpl Nat.add. unfold SV.substr. simpl SV.drop at 1.
  rewrite take_app.
  rewrite (trim_id _ _ nc nd (f_equal SV.front Hneq) Hnc_t Hnb Hnd_t).
  rewrite Hneq at 1. rewrite (trimStringQuotes_unquoted _ _ _ _ _ Hndq). simpl bind.
  change (name ++ String ch_space (ws ++ sub))
    with (name ++ String ch_space EmptyString ++ (ws ++ sub)).
  rewrite <- app_assoc_string.
  rewrite drop_app_exact by (rewrite !length_app; simpl; lia).
  rewrite (trim_left _ _ _ sc sd Hws (f_equal SV.front Hseq) Hsc_t Hsb Hsd_t).
  rewrite Hseq at 1. rewrite (trimStringQuotes_unquoted _ _ _ _ _ Hsdq). simpl bind.
  by rewrite <- Hneq, <- Hseq.
Qed.

(** X29. A header line moves the cursor.  With bare names, and white
    space allowed at both ends of the line: [[name]] selects the section
    [name] and its subsection with the empty name, and [[name sub]], with
    one space or more white space between the two, selects the
    subsection [sub] of [name]. *)
Theorem header_line_moves_cursor (b : builder) (n : Z) (ws1 name ws sub ws4 : string) :
  bare name = true ->
  made_of default_trim_chars ws1 = true ->
  made_of default_trim_chars ws = true ->
  made_of default_trim_chars ws4 = true ->
  parseLine b n (ws1 ++ String ch_lbracket (name ++ String ch_rbracket ws4))
  = Returns (select (ct b) name EmptyString) /\
  (bare sub = true ->
   parseLine b n
     (ws1 ++ String ch_lbracket
               (name ++ String ch_space (ws ++ sub ++ String ch_rbracket ws4)))
   = Returns (select (ct b) name sub)).
Proof.
  intros Hname H1 Hws H4. split.
  - destruct (bare_inv _ Hname) as (nc & nr & nd & Hneq & Hnb & Hnc & Hnd & Hnf).
    pose proof (free_of_subset special_chars comment_chars name eq_refl Hnf) as Hnf_c.
    rewrite <- header_shape, (header_open b n ws1 name ws4 H1 H4 Hnf_c).
    unfold findFirstNotQuoted.
    by rewrite (findFirstNotQuoted_from_absent name ch_space
                  (free_of_subset special_chars (String ch_space EmptyString) name
                     eq_refl Hnf)).
  - intros Hsub. by apply header_pair.
Qed.

Lemma header_line_moves_cursor_witness :
  parseLine (select empty_table "" "") 1
    (" " ++ String ch_lbracket ("server" ++ String ch_rbracket " "))
  = Returns (select (ct (select empty_table "" "")) "server" "") /\
  parseLine (select empty_table "" "") 1
    (" " ++ String ch_lbracket
              ("server" ++ String ch_space (" " ++ "main" ++ String ch_rbracket " ")))
  = Returns (select (ct (select empty_table "" "")) "server" "main").
Proof.
  split.
  - apply (header_line_moves_cursor (select empty_table "" "") 1
             " " "server" " " "main" " "); reflexivity.
  - apply (header_line_moves_cursor (select empty_table "" "") 1
             " " "server" " " "main" " "); reflexivity.
Defined.

(** * From the stream to the table *)

Lemma getlines_cons (l rest : string) :
  free_of lf l = true ->
  getlines (l ++ String ch_newline rest) = l :: getlines rest.
Proof.
  induction l as [| c r IH]; intros H.
  - reflexivity.
  - change (free_of lf (String c r))
      with (negb (SV.mem c (String ch_newline EmptyString)) && free_of lf r)%bool in H.
    apply andb_true_iff in H as [Hc Hr]. apply negb_true_iff in Hc.
    apply mem_false_cons in Hc as [Hc _].
    change (String c r ++ String ch_newline rest)
      with (String c (r ++ String ch_newline rest)).
    simpl. by rewrite Hc, (IH Hr).
Qed.

Lemma getlines_single (c : ascii) (r : string) :
  free_of lf (String c r) = true -> getlines (String c r) = [String c r].
Proof.
  revert c. induction r as [| d r IH]; intros c H.
  - change (free_of lf (String c EmptyString))
      with (negb (SV.mem c (String ch_newline EmptyString)) && true)%bool in H.
    apply andb_true_iff in H as [Hc _]. apply negb_true_iff in Hc.
    apply mem_false_cons in Hc as [Hc _]. simpl. by rewrite Hc.
  - change (free_of lf (String c (String d r)))
      with (negb (SV.mem c (String ch_newline EmptyString))
            && free_of lf (String d r))%bool in H.
    apply andb_true_iff in H as [Hc Hr]. apply negb_true_iff in Hc.
    apply mem_false_cons in Hc as [Hc _].
    change (getlines (String c (String d r)))
      with (if Ascii.eqb c ch_newline then EmptyString :: getlines (String d r)
            else match getlines (String d r) with
                 | [] => [String c EmptyString]
                 | l :: ls => String c l :: ls
                 end).
    by rewrite Hc, (IH d Hr).
Qed.

Lemma lookup3_empty (x y k : string) : lookup3 empty_table x y k = None.
Proof.
  apply lookup3_absent. left. apply bool_decide_eq_false.
  intros [g Hg]. unfold empty_table in Hg. cbn [groups] in Hg.
  by rewrite lookup_empty in Hg.
Qed.

(** X30. A header followed by a key/value line, all four words bare:
    the parse returns a table in which the value is found under the
    section, the subsection and the key, and in which no other field is
    found. *)
Theorem parse_section_field (name sub key value : string) :
  bare name = true -> bare sub = true -> bare key = true -> bare value = true ->
  exists t : ConfigTable,
    parseConfigFile
      (String ch_lbracket
         (name ++ String ch_space (sub ++ String ch_rbracket
            (String ch_newline (key ++ String ch_eq value)))))
    = Returns t /\
    lookup3 t name sub key = Some value /\
    (forall x y k, (x, y, k) <> (name, sub, key) -> lookup3 t x y k = None).
Proof.
  intros Hname Hsub Hkey Hvalue.
  set (l1 := String ch_lbracket
               (name ++ String ch_space (sub ++ String ch_rbracket EmptyString))).
  set (l2 := key ++ String ch_eq value).
  assert (Hshape : String ch_lbracket
                     (name ++ String ch_space (sub ++ String ch_rbracket
                        (String ch_newline l2)))
                   = l1 ++ String ch_newline l2).
  { unfold l1.
    change (String ch_lbracket
              (name ++ String ch_space (sub ++ String ch_rbracket EmptyString))
            ++ String ch_newline l2)
      with (String ch_lbracket
              ((name ++ String ch_space (sub ++ String ch_rbracket EmptyString))
               ++ String ch_newline l2)).
    rewrite app_assoc_string.
    change (String ch_space (sub ++ String ch_rbracket EmptyString)
            ++ String ch_newline l2)
      with (String ch_space ((sub ++ String ch_rbracket EmptyString)
                             ++ String ch_newline l2)).
    by rewrite app_assoc_string. }
  destruct (bare_inv _ Hname) as (_ & _ & _ & _ & _ & _ & _ & Hnf).
  destruct (bare_inv _ Hsub) as (_ & _ & _ & _ & _ & _ & _ & Hsf).
  destruct (bare_inv _ Hkey) as (kc & kr & _ & Hkeq & _ & _ & _ & Hkf).
  destruct (bare_inv _ Hvalue) as (_ & _ & _ & _ & _ & _ & _ & Hvf).
  assert (H1 : free_of lf l1 = true).
  { unfold l1. change (free_of lf (name ++ String ch_space
                                     (sub ++ String ch_rbracket EmptyString)) = true).
    rewrite free_of_app, (free_of_subset special_chars lf name eq_refl Hnf).
    change (free_of lf (sub ++ String ch_rbracket EmptyString) = true).
    by rewrite free_of_app, (free_of_subset special_chars lf sub eq_refl Hsf). }
  assert (H2 : free_of lf l2 = true).
  { unfold l2. rewrite free_of_app, (free_of_subset special_chars lf key eq_refl Hkf).
    change (free_of lf value = true).
    exact (free_of_subset special_chars lf value eq_refl Hvf). }
  assert (Hl2 : getlines l2 = [l2]).
  { revert H2. unfold l2. rewrite Hkeq.
    change (String kc kr ++ String ch_eq value)
      with (String kc (kr ++ String ch_eq value)).
    apply getlines_single. }
  set (b0 := select empty_table EmptyString EmptyString).
  assert (P1 : parseLine b0 1 l1 = Returns (select (ct b0) name sub)).
  { pose proof (header_pair b0 1 EmptyString name EmptyString sub EmptyString
                  Hname Hsub eq_refl eq_refl eq_refl) as P.
    exact P. }
  assert (P2 : forall b n, parseLine b n l2 = Returns (cur_setField b key value)).
  { intros b n.
    destruct (bare_inv _ Hvalue) as (vc & vr & vd & Hveq & Hvb & Hvc & Hvd & _).
    pose proof (keyvalue_line b n EmptyString key EmptyString EmptyString value
                  EmptyString value vc vd Hkey eq_refl eq_refl eq_refl eq_refl
                  (free_of_subset special_chars comment_chars value eq_refl Hvf)) as P.
    rewrite !app_empty_r in P. apply P.
    - by rewrite Hveq.
    - exact (special_not vc default_trim_chars eq_refl Hvc).
    - exact Hvb.
    - exact (special_not vd default_trim_chars eq_refl Hvd).
    - rewrite Hveq. apply trimStringQuotes_unquoted.
      intros ->. vm_compute in Hvc. discriminate Hvc. }
  exists (ct (cur_setField (select (ct b0) name sub) key value)).
  split; [| split].
  - fold l2. rewrite Hshape. unfold parseConfigFile.
    rewrite (getlines_cons _ _ H1), Hl2. fold b0.
    cbn [parseLoop]. rewrite P1. simpl bind. by rewrite P2.
  - by rewrite cur_setField_lookup3, decide_True.
  - intros x y k Hne.
    rewrite cur_setField_lookup3, decide_False by exact Hne.
    unfold b0. rewrite !select_lookup3. apply lookup3_empty.
Qed.

Lemma parse_section_field_witness :
  exists t : ConfigTable,
    parseConfigFile
      (String ch_lbracket
         ("server" ++ String ch_space ("main" ++ String ch_rbracket
            (String ch_newline ("port" ++ String ch_eq "8080")))))
    = Returns t /\
    lookup3 t "server" "main" "port" = Some "8080" /\
    (forall x y k, (x, y, k) <> ("server", "main", "port") -> lookup3 t x y k = None).
Proof.
  apply (parse_section_field "server" "main" "port" "8080"); reflexivity.
Defined.
